(** * The LangChain / LangGraph streaming processors of pipecat

    A shallow embedding of
    [src/pipecat/processors/frameworks/langchain.py] and
    [src/pipecat/processors/frameworks/langgraph.py], and the properties
    of the streaming bridge that these two frame processors implement.

    Python coroutines are embedded in a small monad that records, in
    order, everything a processor does to the outside world (frames
    pushed, backend calls, elements requested from the backend stream,
    log records) and that carries Python exceptions. *)

From Stdlib Require Import ZArith Ascii String List Lia.
From stdpp Require Import base option list gmap strings fin_maps.

Local Open Scope string_scope.
Local Open Scope list_scope.

(** ** Python values *)

(** [langchain_core.messages.AIMessageChunk]: only its [content] is read.
    The embedding covers chunks whose content is a [str], which is what
    the annotation [-> str] of [__get_token_value] assumes. *)
Record AIMessageChunk := { content : string }.

(** [langchain.schema.Document]. *)
Record Document := { page_content : string; metadata : list (string * string) }.

(** The values that flow through the two processors (Python's [Any]).
    [PyDocDict d] is the dictionary [d.dict(exclude_none=True)]; pydantic
    lies outside the repository, so that dictionary is kept symbolic. *)
Inductive Any :=
| PyNone
| PyStr (s : string)
| PyInt (n : Z)
| PyChunk (c : AIMessageChunk)
| PyDocDict (d : Document).

(** Python's [str(x)] on a value that already is a [str]. *)
Definition py_str (s : string) : string := s.

(** ** Exceptions *)

(** Subclasses of [Exception] that occur in the embedding. [Error] stands
    for any other error raised by a backend. *)
Inductive ExceptionClass :=
| IndexError
| KeyError (key : string)
| AttributeError (attr : string)
| TypeError
| Error (msg : string).

(** The top of Python's exception hierarchy: [GeneratorExit],
    [KeyboardInterrupt], [SystemExit] and [asyncio.CancelledError] derive
    from [BaseException] directly, everything else from [Exception].
    ([CancelledError] has done so since Python 3.8; the [match] statements
    of the two files need Python 3.10.) A task that is cancelled while it
    awaits the next element of a stream sees [CancelledError] raised at
    that point. *)
Inductive BaseException :=
| GeneratorExit
| KeyboardInterrupt
| SystemExit
| CancelledError
| Exception (cls : ExceptionClass).

(** [isinstance(e, GeneratorExit)] and [isinstance(e, Exception)], the
    tests made by the two [except] clauses. *)
Definition isinstance_GeneratorExit (e : BaseException) : bool :=
  match e with GeneratorExit => true | _ => false end.

Definition isinstance_Exception (e : BaseException) : bool :=
  match e with Exception _ => true | _ => false end.

(** ** Frames *)

Inductive FrameDirection := DOWNSTREAM | UPSTREAM.

(** Modelled from the spec: [pipecat.frames.frames] is not part of the
    sources at hand. The frame classes the processors name are
    constructors; [OtherFrame] stands for every other frame class (audio,
    control frames and the like). [ToolResultMessage] is the dataclass of
    langgraph.py. *)
Inductive Frame :=
| LLMMessagesFrame (messages : list (gmap string Any))
| LLMFullResponseStartFrame
| LLMFullResponseEndFrame
| LLMResponseStartFrame
| LLMResponseEndFrame
| TextFrame (text : string)
| ToolResultMessage (result : Any) (type : string)
| OtherFrame (name : string).

(** [ToolResultMessage(result)]: the field [type] defaults to
    ["tool_result"]. *)
Definition ToolResultMessage_ (result : Any) : Frame :=
  ToolResultMessage result "tool_result".

(** ** Requests passed to the backends *)

(** [chain.astream({transcript_key: text}, config={"configurable": cfg})] *)
Record AstreamCall := {
  astream_input : gmap string Any;
  astream_config : gmap string (gmap string Any)
}.

Record HumanMessage := { human_content : string }.

(** [graph.astream_events({"messages": [...]}, config={"configurable":
    {...}}, version="v1")] *)
Record AstreamEventsCall := {
  events_input : gmap string (list HumanMessage);
  events_config : gmap string (gmap string Any);
  events_version : string
}.

(** ** Diagnostics *)

Inductive Level := DEBUG | WARNING | ERROR | EXCEPTION.

(** The log records of the two files, by their format string and the
    values formatted into it. *)
Inductive Diagnostic :=
| Got_transcription_frame (frame : Frame)
| Invoking_chain_with (text : string)
| Invoking_agent_with (text : string)
| Generator_was_closed_prematurely
| An_unknown_error_occurred (e : BaseException)
| Starting_tool (name : string) (inputs : Any)
| Sending_docs (n : nat).

(** ** The effect monad *)

(** What a processor does to its environment. *)
Inductive Action :=
| Push (frame : Frame) (direction : FrameDirection)
| Astream (call : AstreamCall)
| AstreamEvents (call : AstreamEventsCall)
| Anext
| Log (level : Level) (msg : Diagnostic).

Inductive Result (A : Type) :=
| Returned (a : A)
| Raised (e : BaseException).
Arguments Returned {A} a.
Arguments Raised {A} e.

(** A coroutine, run to completion: how it ended and what it did, oldest
    action first. The actions done before an exception are kept. *)
Definition M (A : Type) : Type := Result A * list Action.

Definition ret {A} (a : A) : M A := (Returned a, []).

Definition bind {A B} (m : M A) (k : A → M B) : M B :=
  match m with
  | (Returned a, t) => let '(r, t') := k a in (r, t ++ t')
  | (Raised e, t) => (Raised e, t)
  end.

Definition raise {A} (e : BaseException) : M A := (Raised e, []).

Definition tell (a : Action) : M unit := (Returned tt, [a]).

#[global] Instance M_ret : MRet M := @ret.
#[global] Instance M_bind : MBind M := λ A B k m, bind m k.

(** [try: body / except ...: handler]: [handler e] is [None] when no
    clause matches [e], which then propagates. *)
Definition try_except {A} (body : M A)
    (handler : BaseException → option (M A)) : M A :=
  match body with
  | (Returned a, t) => (Returned a, t)
  | (Raised e, t) =>
      match handler e with
      | Some h => let '(r, t') := h in (r, t ++ t')
      | None => (Raised e, t)
      end
  end.

(** Lifting a lookup that may fail. *)
Definition or_raise {A} (o : option A) (e : BaseException) : M A :=
  match o with Some a => ret a | None => raise e end.

Definition outcome {A} (m : M A) : Result A := fst m.
Definition trace {A} (m : M A) : list Action := snd m.

(** Modelled from the spec: [FrameProcessor.push_frame] of
    [pipecat.processors.frame_processor] is not part of the sources at
    hand. It hands one frame to the sink, in generation order; the
    direction defaults to downstream. *)
Definition push_frame (frame : Frame) (direction : FrameDirection) : M unit :=
  tell (Push frame direction).

Definition logger (level : Level) (msg : Diagnostic) : M unit :=
  tell (Log level msg).

(** ** Backend streams *)

(** The finite, single-pass sequence a backend returns: it yields
    elements and then either is exhausted or raises. A stream that
    raises on open is [Raises e]. *)
Inductive Stream (E : Type) :=
| Exhausted
| Raises (e : BaseException)
| Yield (x : E) (rest : Stream E).
Arguments Exhausted {E}.
Arguments Raises {E} e.
Arguments Yield {E} x rest.

(** [async for x in s: body(x)]: every round first requests the next
    element, then runs the body on it before requesting another. *)
Fixpoint async_for {E} (s : Stream E) (body : E → M unit) : M unit :=
  tell Anext;;
  match s with
  | Exhausted => mret tt
  | Raises e => raise e
  | Yield x rest => body x;; async_for rest body
  end.

(** [for x in l: body(x)] *)
Fixpoint for_in {E} (l : list E) (body : E → M unit) : M unit :=
  match l with
  | [] => mret tt
  | x :: l' => body x;; for_in l' body
  end.

(** ** Python built-ins used by the processors *)

(** [str.isspace] on one character, for code points below 256. *)
Definition isspace (c : ascii) : bool :=
  let n := nat_of_ascii c in
  (Nat.leb 9 n && Nat.leb n 13) || (Nat.leb 28 n && Nat.leb n 32)
  || Nat.eqb n 133 || Nat.eqb n 160.

Fixpoint lstrip (s : string) : string :=
  match s with
  | EmptyString => EmptyString
  | String c s' => if isspace c then lstrip s' else s
  end.

Fixpoint rstrip (s : string) : string :=
  match s with
  | EmptyString => EmptyString
  | String c s' =>
      match rstrip s' with
      | EmptyString => if isspace c then EmptyString else String c EmptyString
      | r => String c r
      end
  end.

(** [s.strip()] *)
Definition strip (s : string) : string := rstrip (lstrip s).

(** [v.strip()] on an arbitrary value: only a [str] has the method. *)
Definition strip_method (v : Any) : M string :=
  match v with
  | PyStr s => mret (strip s)
  | _ => raise (Exception (AttributeError "strip"))
  end.

(** [l[i]] on a list, negative indices counting from the end. *)
Definition list_getitem {A} (l : list A) (i : Z) : M A :=
  let n := Z.of_nat (length l) in
  let j := if (i <? 0)%Z then (i + n)%Z else i in
  if ((j <? 0) || (n <=? j))%Z then raise (Exception IndexError)
  else or_raise (l !! Z.to_nat j) (Exception IndexError).

(** [d[k]] on a dict. *)
Definition dict_getitem {A} (d : gmap string A) (k : string) : M A :=
  or_raise (d !! k) (Exception (KeyError k)).

(** [d.update(u)]: the keys of [u] win. *)
Definition dict_update {A} (d u : gmap string A) : gmap string A := u ∪ d.

(** ** langchain.py *)

Module Langchain.

Record LangchainProcessor := {
  _chain : AstreamCall → Stream Any;
  _config : gmap string Any;
  _transcript_key : string
}.

Definition __init__ (chain : AstreamCall → Stream Any)
    (transcript_key : string) : LangchainProcessor :=
  {| _chain := chain; _config := ∅; _transcript_key := transcript_key |}.

Definition set_configurable (self : LangchainProcessor)
    (configurable : gmap string Any) : LangchainProcessor :=
  {| _chain := _chain self;
     _config := dict_update (_config self) configurable;
     _transcript_key := _transcript_key self |}.

Definition __get_token_value (text : Any) : string :=
  match text with
  | PyStr s => s
  | PyChunk c => content c
  | _ => ""
  end.

Definition _ainvoke (self : LangchainProcessor) (text : string) : M unit :=
  logger DEBUG (Invoking_chain_with text);;
  push_frame LLMFullResponseStartFrame DOWNSTREAM;;
  try_except
    (let call :=
       {| astream_input := {[ _transcript_key self := PyStr text ]};
          astream_config := {[ "configurable" := _config self ]} |} in
     tell (Astream call);;
     async_for (_chain self call) (λ token,
       push_frame (TextFrame (__get_token_value token)) DOWNSTREAM))
    (λ e,
       if isinstance_GeneratorExit e then
         Some (logger WARNING Generator_was_closed_prematurely)
       else if isinstance_Exception e then
         Some (logger ERROR (An_unknown_error_occurred e))
       else None);;
  push_frame LLMFullResponseEndFrame DOWNSTREAM.

Definition process_frame (self : LangchainProcessor) (frame : Frame)
    (direction : FrameDirection) : M unit :=
  match frame with
  | LLMMessagesFrame messages =>
      logger DEBUG (Got_transcription_frame frame);;
      last_message ← list_getitem messages (-1);
      text ← dict_getitem last_message "content";
      stripped ← strip_method text;
      _ainvoke self stripped
  | _ => push_frame frame direction
  end.

End Langchain.

(** ** langgraph.py *)

Module Langgraph.

(** The [output] of an event. A retriever run through version "v1" of
    [astream_events] gives a dict that holds the documents under
    ["documents"]; an output can also be [None], a bare list of
    documents or a string, none of which a string subscripts. *)
Inductive Output :=
| OutputDict (d : gmap string (list Document))
| OutputNone
| OutputList (docs : list Document)
| OutputStr (s : string).

(** The [data] of a stream event: a dict in which each of the keys
    [chunk], [input] and [output] may be absent. *)
Record EventData := {
  chunk : option Any;
  input : option Any;
  output : option Output
}.

(** [out[k]] on an output. *)
Definition output_getitem (out : Output) (k : string) : M (list Document) :=
  match out with
  | OutputDict d => dict_getitem d k
  | _ => raise (Exception TypeError)
  end.

(** One element of [astream_events]. *)
Record StreamEvent := { event : string; name : string; data : EventData }.

Record LanggraphProcessor := {
  _graph : AstreamEventsCall → Stream StreamEvent;
  _participant_id : option string
}.

Definition __init__ (graph : AstreamEventsCall → Stream StreamEvent)
    : LanggraphProcessor :=
  {| _graph := graph; _participant_id := None |}.

Definition set_participant_id (self : LanggraphProcessor)
    (participant_id : string) : LanggraphProcessor :=
  {| _graph := _graph self; _participant_id := Some participant_id |}.

Definition __get_token_value (text : Any) : string :=
  match text with
  | PyStr s => s
  | PyChunk c => py_str (content c)
  | _ => ""
  end.

(** The body of the [async for] loop: the [match] on the event kind. *)
Definition on_event (ev : StreamEvent) : M unit :=
  if (event ev =? "on_chat_model_stream")%string then
    push_frame LLMResponseStartFrame DOWNSTREAM;;
    c ← or_raise (chunk (data ev)) (Exception (KeyError "chunk"));
    push_frame (TextFrame (__get_token_value c)) DOWNSTREAM;;
    push_frame LLMResponseEndFrame DOWNSTREAM
  else if (event ev =? "on_tool_start")%string then
    logger DEBUG (Starting_tool (name ev) (default PyNone (input (data ev))))
  else if (event ev =? "on_tool_end")%string then
    mret tt
  else if (event ev =? "on_retriever_end")%string then
    out ← or_raise (output (data ev)) (Exception (KeyError "output"));
    docs ← output_getitem out "documents";
    logger DEBUG (Sending_docs (length docs));;
    for_in docs (λ doc, push_frame (ToolResultMessage_ (PyDocDict doc)) DOWNSTREAM)
  else
    mret tt.

Definition _ainvoke (self : LanggraphProcessor) (text : string) : M unit :=
  logger DEBUG (Invoking_agent_with text);;
  push_frame LLMFullResponseStartFrame DOWNSTREAM;;
  try_except
    (let call :=
       {| events_input := {[ "messages" := [ {| human_content := text |} ] ]};
          events_config :=
            {[ "configurable" :=
                 {[ "thread_id" :=
                      match _participant_id self with
                      | Some p => PyStr p
                      | None => PyNone
                      end ]} ]};
          events_version := "v1" |} in
     tell (AstreamEvents call);;
     async_for (_graph self call) on_event)
    (λ e,
       if isinstance_GeneratorExit e then
         Some (logger EXCEPTION Generator_was_closed_prematurely)
       else if isinstance_Exception e then
         Some (logger EXCEPTION (An_unknown_error_occurred e))
       else None);;
  push_frame LLMFullResponseEndFrame DOWNSTREAM.

Definition process_frame (self : LanggraphProcessor) (frame : Frame)
    (direction : FrameDirection) : M unit :=
  match frame with
  | LLMMessagesFrame messages =>
      logger DEBUG (Got_transcription_frame frame);;
      last_message ← list_getitem messages (-1);
      text ← dict_getitem last_message "content";
      stripped ← strip_method text;
      _ainvoke self stripped
  | _ => push_frame frame direction
  end.

End Langgraph.

(** ** Reading a trace *)

(** The frames handed to the sink, with their directions, in order. *)
Definition pushed (t : list Action) : list (Frame * FrameDirection) :=
  omap (λ a, match a with Push f d => Some (f, d) | _ => None end) t.

Definition frames (t : list Action) : list Frame := (pushed t).*1.

(** The payload frames: text chunks and tool results. *)
Definition is_payload (f : Frame) : bool :=
  match f with
  | TextFrame _ | ToolResultMessage _ _ => true
  | _ => false
  end.

Definition payload (t : list Action) : list Frame :=
  List.filter is_payload (frames t).

(** What happens at the boundary with the sink and the backend stream:
    pushes and requests for a next element, log records left out. *)
Definition is_exchange (a : Action) : bool :=
  match a with Push _ _ | Anext => true | _ => false end.

Definition exchanges (t : list Action) : list Action :=
  List.filter is_exchange t.

Definition astream_calls (t : list Action) : list AstreamCall :=
  omap (λ a, match a with Astream c => Some c | _ => None end) t.

Definition events_calls (t : list Action) : list AstreamEventsCall :=
  omap (λ a, match a with AstreamEvents c => Some c | _ => None end) t.

Definition diagnostics (t : list Action) : list (Level * Diagnostic) :=
  omap (λ a, match a with Log l d => Some (l, d) | _ => None end) t.

(** ** Vocabulary of the properties *)

(** The faults the two [except] clauses of [_ainvoke] catch. *)
Definition contained (e : BaseException) : bool :=
  isinstance_GeneratorExit e || isinstance_Exception e.

(** The elements a stream yields, and how it ends ([None]: exhausted). *)
Fixpoint elements {E} (s : Stream E) : list E :=
  match s with
  | Yield x rest => x :: elements rest
  | _ => []
  end.

Fixpoint ending {E} (s : Stream E) : option BaseException :=
  match s with
  | Exhausted => None
  | Raises e => Some e
  | Yield _ rest => ending rest
  end.

(** A stream that yields [l] and then goes on as [s]. *)
Fixpoint prepend {E} (l : list E) (s : Stream E) : Stream E :=
  match l with
  | [] => s
  | x :: l' => Yield x (prepend l' s)
  end.

(** The elements an [async for] loop draws from a stream: all of them
    up to the first one on which the body raises. *)
Fixpoint drawn {E} (body : E → M unit) (s : Stream E) : list E :=
  match s with
  | Yield x rest =>
      x :: match outcome (body x) with
           | Returned _ => drawn body rest
           | Raised _ => []
           end
  | _ => []
  end.

(** How the loop ends: [None] when the stream is exhausted, otherwise
    the exception of the stream or of the body. *)
Fixpoint loop_end {E} (body : E → M unit) (s : Stream E)
    : option BaseException :=
  match s with
  | Exhausted => None
  | Raises e => Some e
  | Yield x rest =>
      match outcome (body x) with
      | Returned _ => loop_end body rest
      | Raised e => Some e
      end
  end.

(** Whether the loop came to request an element the stream did not
    have, that is whether no body raised. *)
Fixpoint reaches_end {E} (body : E → M unit) (s : Stream E) : bool :=
  match s with
  | Yield x rest =>
      match outcome (body x) with
      | Returned _ => reaches_end body rest
      | Raised _ => false
      end
  | _ => true
  end.

(** An ending after which [_ainvoke] goes on to its last statement. *)
Definition completes (o : option BaseException) : bool :=
  match o with None => true | Some e => contained e end.

(** What [_ainvoke] does once its loop has ended in [o]: the matching
    [except] clause, if any, and then the end marker. [warn] and [err]
    are the levels at which the two clauses log. *)
Definition aftermath (warn err : Level) (o : option BaseException) : M unit :=
  match o with
  | None => (Returned tt, [Push LLMFullResponseEndFrame DOWNSTREAM])
  | Some e =>
      if isinstance_GeneratorExit e then
        (Returned tt, [Log warn Generator_was_closed_prematurely;
                       Push LLMFullResponseEndFrame DOWNSTREAM])
      else if isinstance_Exception e then
        (Returned tt, [Log err (An_unknown_error_occurred e);
                       Push LLMFullResponseEndFrame DOWNSTREAM])
      else (Raised e, [])
  end.

(** Frames allowed between the two markers of a response. *)
Definition is_inner (f : Frame) : bool :=
  match f with
  | TextFrame _ | ToolResultMessage _ _
  | LLMResponseStartFrame | LLMResponseEndFrame => true
  | _ => false
  end.

Definition is_start (f : Frame) : bool :=
  match f with LLMFullResponseStartFrame => true | _ => false end.

Definition is_end (f : Frame) : bool :=
  match f with LLMFullResponseEndFrame => true | _ => false end.

(** The framing bracket: one start marker first, one end marker last,
    and nothing but text, tool results and sub-brackets in between. *)
Definition bracketed (fs : list Frame) : Prop :=
  ∃ mid, fs = LLMFullResponseStartFrame :: mid ++ [LLMFullResponseEndFrame]
         ∧ Forall (λ f, is_inner f = true) mid.

Fixpoint all_space (s : string) : bool :=
  match s with
  | EmptyString => true
  | String c s' => isspace c && all_space s'
  end.

(** The frame that triggers an invocation. *)
Definition is_trigger (f : Frame) : bool :=
  match f with LLMMessagesFrame _ => true | _ => false end.

(** The call [LangchainProcessor._ainvoke] makes to its chain. *)
Definition chain_call (self : Langchain.LangchainProcessor) (text : string)
    : AstreamCall :=
  {| astream_input := {[ Langchain._transcript_key self := PyStr text ]};
     astream_config := {[ "configurable" := Langchain._config self ]} |}.

(** The call [LanggraphProcessor._ainvoke] makes to its graph. *)
Definition graph_call (self : Langgraph.LanggraphProcessor) (text : string)
    : AstreamEventsCall :=
  {| events_input := {[ "messages" := [ {| human_content := text |} ] ]};
     events_config :=
       {[ "configurable" :=
            {[ "thread_id" :=
                 match Langgraph._participant_id self with
                 | Some p => PyStr p
                 | None => PyNone
                 end ]} ]};
     events_version := "v1" |}.

(** The streams the backends return to these calls. *)
Definition chain_stream (self : Langchain.LangchainProcessor) (text : string)
    : Stream Any :=
  Langchain._chain self (chain_call self text).

Definition graph_stream (self : Langgraph.LanggraphProcessor) (text : string)
    : Stream Langgraph.StreamEvent :=
  Langgraph._graph self (graph_call self text).

(** The frame the simple tier emits for one stream element. *)
Definition chain_frame (token : Any) : Frame :=
  TextFrame (Langchain.__get_token_value token).

(** The kinds of event [LanggraphProcessor._ainvoke] has a case for. *)
Definition known_kind (k : string) : bool :=
  (k =? "on_chat_model_stream")%string || (k =? "on_tool_start")%string
  || (k =? "on_tool_end")%string || (k =? "on_retriever_end")%string.

(** Frames delivered one after the other to a processor. *)
Definition chain_process_frames (self : Langchain.LangchainProcessor)
    (l : list (Frame * FrameDirection)) : M unit :=
  for_in l (λ fd, Langchain.process_frame self fd.1 fd.2).

Definition graph_process_frames (self : Langgraph.LanggraphProcessor)
    (l : list (Frame * FrameDirection)) : M unit :=
  for_in l (λ fd, Langgraph.process_frame self fd.1 fd.2).

(** The record a contained fault leaves in the log. *)
Definition fault_record (warn err : Level) (e : BaseException)
    : Level * Diagnostic :=
  if isinstance_GeneratorExit e then (warn, Generator_was_closed_prematurely)
  else (err, An_unknown_error_occurred e).

(** ** Example backends *)

(** A chain that yields the given elements and then ends as told. *)
Definition chain_yielding (l : list Any) (fin : Stream Any)
    : Langchain.LangchainProcessor :=
  Langchain.__init__ (λ _, prepend l fin) "input".

Definition graph_yielding (l : list Langgraph.StreamEvent)
    (fin : Stream Langgraph.StreamEvent) : Langgraph.LanggraphProcessor :=
  Langgraph.__init__ (λ _, prepend l fin).

Definition no_data : Langgraph.EventData :=
  {| Langgraph.chunk := None; Langgraph.input := None;
     Langgraph.output := None |}.

Definition model_stream (c : Any) : Langgraph.StreamEvent :=
  {| Langgraph.event := "on_chat_model_stream";
     Langgraph.name := "ChatModel";
     Langgraph.data :=
       {| Langgraph.chunk := Some c; Langgraph.input := None;
          Langgraph.output := None |} |}.

Definition tool_start (tool : string) (args : Any) : Langgraph.StreamEvent :=
  {| Langgraph.event := "on_tool_start";
     Langgraph.name := tool;
     Langgraph.data :=
       {| Langgraph.chunk := None; Langgraph.input := Some args;
          Langgraph.output := None |} |}.

Definition retriever_end (docs : list Document) : Langgraph.StreamEvent :=
  {| Langgraph.event := "on_retriever_end";
     Langgraph.name := "Retriever";
     Langgraph.data :=
       {| Langgraph.chunk := None; Langgraph.input := None;
          Langgraph.output :=
            Some (Langgraph.OutputDict {[ "documents" := docs ]}) |} |}.

Definition custom_event : Langgraph.StreamEvent :=
  {| Langgraph.event := "on_custom_event"; Langgraph.name := "progress";
     Langgraph.data := no_data |}.

Definition D1 : Document := {| page_content := "alpha"; metadata := [] |}.
Definition D2 : Document :=
  {| page_content := "beta"; metadata := [("source", "b.txt")] |}.

Definition faulty_chain : Langchain.LangchainProcessor :=
  chain_yielding [PyStr "Hi"] (Raises (Exception (Error "boom"))).

Definition cancelled_chain : Langchain.LangchainProcessor :=
  chain_yielding [PyStr "Hi"] (Raises CancelledError).

Definition closed_graph : Langgraph.LanggraphProcessor :=
  graph_yielding [model_stream (PyStr "Hi")] (Raises GeneratorExit).

Definition odd_chain : Langchain.LangchainProcessor :=
  chain_yielding [PyStr "a"; PyInt 7; PyStr "b"] Exhausted.

Definition odd_graph : Langgraph.LanggraphProcessor :=
  graph_yielding
    [model_stream (PyStr "a"); custom_event; model_stream (PyStr "b")] Exhausted.

Definition plain_graph : Langgraph.LanggraphProcessor :=
  graph_yielding [model_stream (PyStr "a"); model_stream (PyStr "b")] Exhausted.

Definition mixed_graph : Langgraph.LanggraphProcessor :=
  graph_yielding
    [tool_start "search" (PyStr "pipecat"); model_stream (PyStr "42");
     retriever_end [D1; D2]] Exhausted.

Definition hello_chain : Langchain.LangchainProcessor :=
  chain_yielding [PyStr "Hel"; PyStr "lo"] Exhausted.

Definition hello_message : gmap string Any :=
  {[ "role" := PyStr "user"; "content" := PyStr "  Hello  " ]}.

Definition hello_frame : Frame := LLMMessagesFrame [hello_message].

(** ** Vocabulary of the further properties *)

Definition is_text (f : Frame) : bool :=
  match f with TextFrame _ => true | _ => false end.

Definition is_sub_start (f : Frame) : bool :=
  match f with LLMResponseStartFrame => true | _ => false end.

Definition is_sub_end (f : Frame) : bool :=
  match f with LLMResponseEndFrame => true | _ => false end.


(** How many frames of a list satisfy a test. *)
Definition count (p : Frame → bool) (fs : list Frame) : nat :=
  length (List.filter p fs).

(** Every push of a trace goes downstream. *)
Definition downstream (t : list Action) : Prop :=
  Forall (λ fd : Frame * FrameDirection, fd.2 = DOWNSTREAM) (pushed t).

(** The log records above the debug level. *)
Definition is_alarm (r : Level * Diagnostic) : bool :=
  match r.1 with DEBUG => false | _ => true end.

Definition alarms (t : list Action) : list (Level * Diagnostic) :=
  List.filter is_alarm (diagnostics t).

(** The documents an [on_retriever_end] event carries, and the text an
    [on_chat_model_stream] event carries; none for other events and for
    events that lack them. *)
Definition event_documents (ev : Langgraph.StreamEvent) : list Document :=
  if (Langgraph.event ev =? "on_retriever_end")%string then
    match Langgraph.output (Langgraph.data ev) with
    | Some (Langgraph.OutputDict out) => default [] (out !! "documents")
    | _ => []
    end
  else [].


(** ** Further example backends *)

Definition chunkless_event : Langgraph.StreamEvent :=
  {| Langgraph.event := "on_chat_model_stream"; Langgraph.name := "ChatModel";
     Langgraph.data := no_data |}.



Definition truncated_graph : Langgraph.LanggraphProcessor :=
  graph_yielding
    [chunkless_event; model_stream (PyStr "b"); retriever_end [D1]] Exhausted.

Definition broken_graph : Langgraph.LanggraphProcessor :=
  graph_yielding [model_stream (PyStr "a"); chunkless_event]
    (Yield (model_stream (PyStr "b")) (Raises CancelledError)).

Definition blank_message : gmap string Any :=
  {[ "role" := PyStr "user"; "content" := PyStr "   " ]}.

Definition silent_message : gmap string Any := {[ "role" := PyStr "user" ]}.

Definition null_message : gmap string Any :=
  {[ "role" := PyStr "assistant"; "content" := PyNone ]}.

(** * Properties *)

(** ** The monad *)

Lemma bind_eq {A B} (m : M A) (k : A → M B) :
  (m ≫= k) = match outcome m with
             | Returned a => (outcome (k a), trace m ++ trace (k a))
             | Raised e => (Raised e, trace m)
             end.
Proof.
  destruct m as [[a|e] t]; simpl; [|done].
  unfold mbind, M_bind, bind. by destruct (k a).
Qed.

Lemma tell_bind {B} (a : Action) (k : M B) :
  (tell a;; k) = (outcome k, a :: trace k).
Proof. by rewrite bind_eq. Qed.

Lemma push_bind {B} (f : Frame) (d : FrameDirection) (k : M B) :
  (push_frame f d;; k) = (outcome k, Push f d :: trace k).
Proof. apply tell_bind. Qed.

Lemma logger_bind {B} (l : Level) (msg : Diagnostic) (k : M B) :
  (logger l msg;; k) = (outcome k, Log l msg :: trace k).
Proof. apply tell_bind. Qed.

Lemma ret_bind {A B} (a : A) (k : A → M B) : (mret a ≫= k) = k a.
Proof. rewrite bind_eq. simpl. by destruct (k a). Qed.


Lemma try_except_eq {A} (body : M A)
    (handler : BaseException → option (M A)) :
  try_except body handler =
    match outcome body with
    | Returned a => body
    | Raised e =>
        match handler e with
        | Some h => (outcome h, trace body ++ trace h)
        | None => body
        end
    end.
Proof.
  destruct body as [[a|e] t]; simpl; [done|].
  destruct (handler e) as [[r t']|]; done.
Qed.


(** ** Traces *)

Lemma pushed_app t1 t2 : pushed (t1 ++ t2) = pushed t1 ++ pushed t2.
Proof. apply omap_app. Qed.

Lemma frames_app t1 t2 : frames (t1 ++ t2) = frames t1 ++ frames t2.
Proof. unfold frames. by rewrite pushed_app, fmap_app. Qed.


Lemma exchanges_app t1 t2 : exchanges (t1 ++ t2) = exchanges t1 ++ exchanges t2.
Proof. apply List.filter_app. Qed.


Lemma astream_calls_app t1 t2 :
  astream_calls (t1 ++ t2) = astream_calls t1 ++ astream_calls t2.
Proof. apply omap_app. Qed.

Lemma events_calls_app t1 t2 :
  events_calls (t1 ++ t2) = events_calls t1 ++ events_calls t2.
Proof. apply omap_app. Qed.

(** ** The loop over a backend stream *)

Section Loop.
Context {E : Type} (body : E → M unit).

Lemma async_for_unfold (s : Stream E) :
  async_for s body =
    (tell Anext;;
     match s with
     | Exhausted => mret tt
     | Raises e => raise e
     | Yield x rest => body x;; async_for rest body
     end).
Proof. by destruct s. Qed.

Lemma async_for_outcome (s : Stream E) :
  outcome (async_for s body) =
    match loop_end body s with
    | None => Returned tt
    | Some e => Raised e
    end.
Proof.
  induction s as [|e|x rest IH]; rewrite async_for_unfold, tell_bind;
    cbn [loop_end outcome fst]; [done..|].
  rewrite bind_eq. destruct (outcome (body x)); [|done].
  apply IH.
Qed.

Lemma async_for_trace (s : Stream E) :
  trace (async_for s body) =
    flat_map (λ x, Anext :: trace (body x)) (drawn body s)
    ++ (if reaches_end body s then [Anext] else []).
Proof.
  induction s as [|e|x rest IH]; rewrite async_for_unfold, tell_bind;
    cbn [drawn reaches_end trace snd flat_map]; [done..|].
  rewrite bind_eq.
  destruct (outcome (body x)); cbn [trace snd flat_map].
  - fold (trace (async_for rest body)). rewrite IH.
    rewrite <- !app_comm_cons. f_equal. by rewrite app_assoc.
  - by rewrite !app_nil_r.
Qed.

Lemma drawn_all (s : Stream E) :
  Forall (λ x, outcome (body x) = Returned tt) (elements s) →
  drawn body s = elements s ∧ loop_end body s = ending s
  ∧ reaches_end body s = true.
Proof.
  induction s as [|e|x rest IH]; simpl; [done..|].
  intros H. apply Forall_cons in H as [Hx H]. rewrite Hx.
  destruct (IH H) as (-> & -> & ->). done.
Qed.

End Loop.

(** ** The shape of an invocation *)

Lemma aftermath_completes warn err o :
  completes o = true →
  outcome (aftermath warn err o) = Returned tt
  ∧ frames (trace (aftermath warn err o)) = [LLMFullResponseEndFrame]
  ∧ exchanges (trace (aftermath warn err o))
    = [Push LLMFullResponseEndFrame DOWNSTREAM].
Proof. destruct o as [[| | | |c]|]; simpl; done. Qed.

Lemma aftermath_records warn err e :
  contained e = true →
  diagnostics (trace (aftermath warn err (Some e))) = [fault_record warn err e].
Proof. by destruct e. Qed.

Lemma aftermath_escapes warn err o :
  completes o = false →
  ∃ e, o = Some e ∧ contained e = false
       ∧ aftermath warn err o = (Raised e, []).
Proof. destruct o as [[| | | |c]|]; simpl; try done; eauto. Qed.

Lemma aftermath_quiet warn err o :
  payload (trace (aftermath warn err o)) = []
  ∧ astream_calls (trace (aftermath warn err o)) = []
  ∧ events_calls (trace (aftermath warn err o)) = [].
Proof. destruct o as [[| | | |c]|]; simpl; done. Qed.

(** The [try] statement of [_ainvoke] followed by the push of the end
    marker, for a loop with any body. *)
Lemma bridge_eq {E} (body : E → M unit) (s : Stream E) (open : Action)
    (warn err : Level) :
  (try_except (tell open;; async_for s body)
     (λ e,
        if isinstance_GeneratorExit e then
          Some (logger warn Generator_was_closed_prematurely)
        else if isinstance_Exception e then
          Some (logger err (An_unknown_error_occurred e))
        else None);;
   push_frame LLMFullResponseEndFrame DOWNSTREAM)
  = (outcome (aftermath warn err (loop_end body s)),
     open :: trace (async_for s body)
     ++ trace (aftermath warn err (loop_end body s))).
Proof.
  rewrite try_except_eq, tell_bind. cbn [outcome trace fst snd].
  rewrite async_for_outcome.
  unfold aftermath, push_frame, logger, tell.
  destruct (loop_end body s) as [e|]; [|by rewrite bind_eq].
  destruct (isinstance_GeneratorExit e);
    [|destruct (isinstance_Exception e)];
    rewrite bind_eq; cbn [outcome trace fst snd];
    rewrite <- ?app_assoc, ?app_nil_r; done.
Qed.

Lemma chain_ainvoke_eq (self : Langchain.LangchainProcessor) (text : string) :
  Langchain._ainvoke self text =
    (outcome (aftermath WARNING ERROR (ending (chain_stream self text))),
     Log DEBUG (Invoking_chain_with text)
     :: Push LLMFullResponseStartFrame DOWNSTREAM
     :: Astream (chain_call self text)
     :: flat_map (λ x, [Anext; Push (chain_frame x) DOWNSTREAM])
          (elements (chain_stream self text))
     ++ Anext
     :: trace (aftermath WARNING ERROR (ending (chain_stream self text)))).
Proof.
  unfold Langchain._ainvoke. cbv zeta. rewrite bridge_eq.
  fold (chain_call self text). fold (chain_stream self text).
  unfold logger, push_frame. rewrite !tell_bind. cbn [outcome trace fst snd].
  rewrite async_for_trace.
  match goal with
  | |- context [drawn ?b ?s] =>
      destruct (drawn_all b s) as (-> & -> & ->); [by apply Forall_forall|]
  end.
  do 4 f_equal. by rewrite <- app_assoc.
Qed.

Lemma graph_ainvoke_eq (self : Langgraph.LanggraphProcessor) (text : string) :
  Langgraph._ainvoke self text =
    (outcome (aftermath EXCEPTION EXCEPTION
                (loop_end Langgraph.on_event (graph_stream self text))),
     Log DEBUG (Invoking_agent_with text)
     :: Push LLMFullResponseStartFrame DOWNSTREAM
     :: AstreamEvents (graph_call self text)
     :: flat_map (λ x, Anext :: trace (Langgraph.on_event x))
          (drawn Langgraph.on_event (graph_stream self text))
     ++ (if reaches_end Langgraph.on_event (graph_stream self text)
         then [Anext] else [])
     ++ trace (aftermath EXCEPTION EXCEPTION
                 (loop_end Langgraph.on_event (graph_stream self text)))).
Proof.
  unfold Langgraph._ainvoke. cbv zeta. rewrite bridge_eq.
  fold (graph_call self text). fold (graph_stream self text).
  unfold logger, push_frame. rewrite !tell_bind. cbn [outcome trace fst snd].
  rewrite async_for_trace. do 4 f_equal. by rewrite <- app_assoc.
Qed.

Lemma frames_flat_map {E} (f : E → list Action) (l : list E) :
  frames (flat_map f l) = flat_map (λ x, frames (f x)) l.
Proof.
  induction l as [|x l IH]; [done|].
  cbn [flat_map]. by rewrite frames_app, IH.
Qed.

Lemma exchanges_flat_map {E} (f : E → list Action) (l : list E) :
  exchanges (flat_map f l) = flat_map (λ x, exchanges (f x)) l.
Proof.
  induction l as [|x l IH]; [done|].
  cbn [flat_map]. by rewrite exchanges_app, IH.
Qed.

Lemma filter_flat_map {E X} (p : X → bool) (f : E → list X) (l : list E) :
  List.filter p (flat_map f l) = flat_map (λ x, List.filter p (f x)) l.
Proof.
  induction l as [|x l IH]; [done|].
  cbn [flat_map]. by rewrite List.filter_app, IH.
Qed.

Lemma flat_map_singleton {E X} (f : E → X) (l : list E) :
  flat_map (λ x, [f x]) l = f <$> l.
Proof. induction l as [|x l IH]; [done|]. cbn. by rewrite IH. Qed.

Lemma for_in_push {E} (f : E → Frame) (l : list E) :
  for_in l (λ x, push_frame (f x) DOWNSTREAM)
  = (Returned tt, (λ x, Push (f x) DOWNSTREAM) <$> l).
Proof.
  induction l as [|x l IH]; [done|].
  cbn [for_in]. by rewrite push_bind, IH.
Qed.

(** ** The event handler of the graph tier, case by case *)

Lemma on_event_eq (ev : Langgraph.StreamEvent) :
  Langgraph.on_event ev =
    if (Langgraph.event ev =? "on_chat_model_stream")%string then
      match Langgraph.chunk (Langgraph.data ev) with
      | Some c =>
          (Returned tt,
           [Push LLMResponseStartFrame DOWNSTREAM;
            Push (TextFrame (Langgraph.__get_token_value c)) DOWNSTREAM;
            Push LLMResponseEndFrame DOWNSTREAM])
      | None =>
          (Raised (Exception (KeyError "chunk")),
           [Push LLMResponseStartFrame DOWNSTREAM])
      end
    else if (Langgraph.event ev =? "on_tool_start")%string then
      (Returned tt,
       [Log DEBUG (Starting_tool (Langgraph.name ev)
                     (default PyNone (Langgraph.input (Langgraph.data ev))))])
    else if (Langgraph.event ev =? "on_tool_end")%string then
      (Returned tt, [])
    else if (Langgraph.event ev =? "on_retriever_end")%string then
      match Langgraph.output (Langgraph.data ev) with
      | None => (Raised (Exception (KeyError "output")), [])
      | Some (Langgraph.OutputDict out) =>
          match out !! "documents" with
          | None => (Raised (Exception (KeyError "documents")), [])
          | Some docs =>
              (Returned tt,
               Log DEBUG (Sending_docs (length docs))
               :: ((λ d, Push (ToolResultMessage_ (PyDocDict d)) DOWNSTREAM)
                     <$> docs))
          end
      | Some _ => (Raised (Exception TypeError), [])
      end
    else (Returned tt, []).
Proof.
  unfold Langgraph.on_event.
  destruct (Langgraph.event ev =? "on_chat_model_stream")%string.
  { rewrite push_bind.
    destruct (Langgraph.chunk (Langgraph.data ev)) as [c|]; [|done].
    cbn [or_raise]. rewrite ret_bind. by rewrite push_bind. }
  destruct (Langgraph.event ev =? "on_tool_start")%string; [done|].
  destruct (Langgraph.event ev =? "on_tool_end")%string; [done|].
  destruct (Langgraph.event ev =? "on_retriever_end")%string; [|done].
  destruct (Langgraph.output (Langgraph.data ev)) as [[out| | |]|]; [|done..].
  cbn [or_raise]. rewrite ret_bind. cbn [Langgraph.output_getitem].
  unfold dict_getitem.
  destruct (out !! "documents") as [docs|]; [|done].
  cbn [or_raise]. rewrite ret_bind.
  by rewrite logger_bind, for_in_push.
Qed.

Lemma on_event_inner (ev : Langgraph.StreamEvent) :
  Forall (λ f, is_inner f = true) (frames (trace (Langgraph.on_event ev))).
Proof.
  rewrite on_event_eq.
  repeat match goal with
         | |- context [if ?b then _ else _] => destruct b
         | |- context [match ?o with Some _ => _ | None => _ end] => destruct o
         | |- context [match ?o with Langgraph.OutputDict _ => _ | _ => _ end] =>
             destruct o
         end; cbn [trace snd]; try by repeat constructor.
  unfold frames. cbn. rewrite Forall_fmap. apply Forall_forall.
  intros [f dir] Hin. cbn.
  apply list_elem_of_omap in Hin as (a & Ha & Hf).
  apply list_elem_of_fmap in Ha as (doc & -> & _). by simplify_eq.
Qed.

Lemma on_event_raises (ev : Langgraph.StreamEvent) e :
  outcome (Langgraph.on_event ev) = Raised e → isinstance_Exception e = true.
Proof.
  rewrite on_event_eq.
  repeat match goal with
         | |- context [if ?b then _ else _] => destruct b
         | |- context [match ?o with Some _ => _ | None => _ end] => destruct o
         | |- context [match ?o with Langgraph.OutputDict _ => _ | _ => _ end] =>
             destruct o
         end; cbn; intros; by simplify_eq.
Qed.

Lemma graph_loop_end (s : Stream Langgraph.StreamEvent) :
  completes (ending s) = true → completes (loop_end Langgraph.on_event s) = true.
Proof.
  induction s as [|e|x rest IH]; cbn [ending loop_end]; [done..|].
  intros H. destruct (outcome (Langgraph.on_event x)) as [[]|e] eqn:Hx; [auto|].
  apply on_event_raises in Hx. unfold completes, contained.
  rewrite Hx. apply orb_true_r.
Qed.

Lemma graph_loop_escape (s : Stream Langgraph.StreamEvent) e :
  loop_end Langgraph.on_event s = Some e → contained e = false →
  ending s = Some e.
Proof.
  induction s as [|e'|x rest IH]; cbn [ending loop_end]; [done..|].
  destruct (outcome (Langgraph.on_event x)) as [[]|e''] eqn:Hx; [auto|].
  intros [= ->] Hc. apply on_event_raises in Hx. unfold contained in Hc.
  rewrite Hx, orb_true_r in Hc. done.
Qed.

(** ** The frames of an invocation *)

Lemma chain_frames (self : Langchain.LangchainProcessor) (text : string) :
  frames (trace (Langchain._ainvoke self text)) =
    LLMFullResponseStartFrame
    :: (chain_frame <$> elements (chain_stream self text))
    ++ frames (trace (aftermath WARNING ERROR (ending (chain_stream self text)))).
Proof.
  rewrite chain_ainvoke_eq. cbn [trace snd].
  change (frames (?a :: ?b :: ?c :: ?t)) with (LLMFullResponseStartFrame :: frames t).
  f_equal. rewrite frames_app, frames_flat_map.
  by rewrite <- flat_map_singleton.
Qed.

Lemma graph_frames (self : Langgraph.LanggraphProcessor) (text : string) :
  frames (trace (Langgraph._ainvoke self text)) =
    LLMFullResponseStartFrame
    :: flat_map (λ x, frames (trace (Langgraph.on_event x)))
         (drawn Langgraph.on_event (graph_stream self text))
    ++ frames (trace (aftermath EXCEPTION EXCEPTION
                        (loop_end Langgraph.on_event (graph_stream self text)))).
Proof.
  rewrite graph_ainvoke_eq. cbn [trace snd].
  change (frames (?a :: ?b :: ?c :: ?t)) with (LLMFullResponseStartFrame :: frames t).
  f_equal. rewrite !frames_app, frames_flat_map. f_equal.
  by destruct (reaches_end _ _).
Qed.

Lemma bracketed_counts (fs : list Frame) :
  bracketed fs →
  length (List.filter is_start fs) = 1 ∧ length (List.filter is_end fs) = 1
  ∧ head fs = Some LLMFullResponseStartFrame
  ∧ last fs = Some LLMFullResponseEndFrame.
Proof.
  intros (mid & -> & Hmid).
  assert (List.filter is_start mid = [] ∧ List.filter is_end mid = []) as [Hs He].
  { induction Hmid as [|f mid Hf _ [IH1 IH2]]; [done|].
    cbn [List.filter]. rewrite IH1, IH2. by destruct f. }
  cbn [List.filter is_start is_end]. rewrite !List.filter_app, Hs, He.
  repeat split; [done..|].
  by rewrite app_comm_cons, last_snoc.
Qed.

(** ** Framing *)

Lemma chain_bracketed (self : Langchain.LangchainProcessor) (text : string) :
  completes (ending (chain_stream self text)) = true →
  outcome (Langchain._ainvoke self text) = Returned tt
  ∧ frames (trace (Langchain._ainvoke self text)) =
      LLMFullResponseStartFrame
      :: (chain_frame <$> elements (chain_stream self text))
      ++ [LLMFullResponseEndFrame].
Proof.
  intros H. rewrite chain_frames. rewrite chain_ainvoke_eq. cbn [outcome fst].
  by destruct (aftermath_completes WARNING ERROR _ H) as (-> & -> & _).
Qed.

Lemma graph_bracketed (self : Langgraph.LanggraphProcessor) (text : string) :
  completes (loop_end Langgraph.on_event (graph_stream self text)) = true →
  outcome (Langgraph._ainvoke self text) = Returned tt
  ∧ frames (trace (Langgraph._ainvoke self text)) =
      LLMFullResponseStartFrame
      :: flat_map (λ x, frames (trace (Langgraph.on_event x)))
           (drawn Langgraph.on_event (graph_stream self text))
      ++ [LLMFullResponseEndFrame].
Proof.
  intros H. rewrite graph_frames. rewrite graph_ainvoke_eq. cbn [outcome fst].
  by destruct (aftermath_completes EXCEPTION EXCEPTION _ H) as (-> & -> & _).
Qed.

Lemma chain_inner (l : list Any) :
  Forall (λ f, is_inner f = true) (chain_frame <$> l).
Proof. rewrite Forall_fmap. by apply Forall_forall. Qed.

Lemma graph_inner (l : list Langgraph.StreamEvent) :
  Forall (λ f, is_inner f = true)
    (flat_map (λ x, frames (trace (Langgraph.on_event x))) l).
Proof.
  induction l as [|x l IH]; [constructor|].
  cbn [flat_map]. apply Forall_app. split; [apply on_event_inner|done].
Qed.

(** [_ainvoke] returns exactly when its loop ends by exhaustion or in a
    fault that one of the two [except] clauses matches; any other fault
    reaches the caller, after the frames pushed so far and without an end
    marker. *)
Lemma chain_returns_iff (self : Langchain.LangchainProcessor) (text : string) :
  outcome (Langchain._ainvoke self text) = Returned tt
  ↔ completes (ending (chain_stream self text)) = true.
Proof.
  split; [|intros H; by destruct (chain_bracketed self text H)].
  rewrite chain_ainvoke_eq. cbn [outcome fst].
  destruct (completes (ending (chain_stream self text))) eqn:Hc; [done|].
  destruct (aftermath_escapes WARNING ERROR _ Hc) as (e & _ & _ & ->). done.
Qed.

Lemma graph_returns_iff (self : Langgraph.LanggraphProcessor) (text : string) :
  outcome (Langgraph._ainvoke self text) = Returned tt
  ↔ completes (loop_end Langgraph.on_event (graph_stream self text)) = true.
Proof.
  split; [|intros H; by destruct (graph_bracketed self text H)].
  rewrite graph_ainvoke_eq. cbn [outcome fst].
  destruct (completes (loop_end _ _)) eqn:Hc; [done|].
  destruct (aftermath_escapes EXCEPTION EXCEPTION _ Hc) as (e & _ & _ & ->). done.
Qed.

Lemma chain_fault_propagates (self : Langchain.LangchainProcessor) text e :
  ending (chain_stream self text) = Some e → contained e = false →
  outcome (Langchain._ainvoke self text) = Raised e
  ∧ frames (trace (Langchain._ainvoke self text))
    = LLMFullResponseStartFrame
      :: (chain_frame <$> elements (chain_stream self text)).
Proof.
  intros He Hc. rewrite chain_frames, chain_ainvoke_eq, He.
  destruct (aftermath_escapes WARNING ERROR (Some e) Hc) as (e' & [= <-] & _ & ->).
  split; [done|]. cbn [trace snd frames pushed omap list_omap fmap list_fmap].
  by rewrite app_nil_r.
Qed.

Lemma graph_fault_propagates (self : Langgraph.LanggraphProcessor) text e :
  loop_end Langgraph.on_event (graph_stream self text) = Some e →
  contained e = false →
  ending (graph_stream self text) = Some e
  ∧ outcome (Langgraph._ainvoke self text) = Raised e
  ∧ last (frames (trace (Langgraph._ainvoke self text)))
    ≠ Some LLMFullResponseEndFrame.
Proof.
  intros He Hc. split; [by apply graph_loop_escape|].
  rewrite graph_frames, graph_ainvoke_eq, He.
  destruct (aftermath_escapes EXCEPTION EXCEPTION (Some e) Hc)
    as (e' & [= <-] & _ & ->).
  split; [done|]. cbn [trace snd frames pushed omap list_omap fmap list_fmap].
  rewrite app_nil_r.
  pose proof (graph_inner (drawn Langgraph.on_event (graph_stream self text)))
    as Hin.
  induction (flat_map _ _) as [|f fs _] using rev_ind; [cbn; congruence|].
  rewrite app_comm_cons, last_snoc. intros [= ->].
  apply Forall_app in Hin as [_ Hin].
  inversion Hin as [|? ? Hf]. discriminate Hf.
Qed.

(** C1 (amended). For every invocation of [_ainvoke], in either
    processor, whose backend stream is exhausted (possibly without having
    yielded anything) or ends, in mid-stream or on open, in a fault that
    is a [GeneratorExit] or an instance of [Exception]: the invocation
    returns, and the frames it pushes are one [LLMFullResponseStartFrame]
    first, one [LLMFullResponseEndFrame] last, and between them only text
    frames, tool results and sub-brackets. *)
Theorem framing_bracket :
  (∀ (self : Langchain.LangchainProcessor) (text : string),
     completes (ending (chain_stream self text)) = true →
     let fs := frames (trace (Langchain._ainvoke self text)) in
     outcome (Langchain._ainvoke self text) = Returned tt
     ∧ bracketed fs
     ∧ length (List.filter is_start fs) = 1
     ∧ length (List.filter is_end fs) = 1)
  ∧ (∀ (self : Langgraph.LanggraphProcessor) (text : string),
       completes (ending (graph_stream self text)) = true →
       let fs := frames (trace (Langgraph._ainvoke self text)) in
       outcome (Langgraph._ainvoke self text) = Returned tt
       ∧ bracketed fs
       ∧ length (List.filter is_start fs) = 1
       ∧ length (List.filter is_end fs) = 1).
Proof.
  split; intros self text H fs.
  - destruct (chain_bracketed self text H) as [Ho Hf].
    assert (bracketed fs) as Hb.
    { eexists. split; [exact Hf|apply chain_inner]. }
    destruct (bracketed_counts fs Hb) as (? & ? & _). done.
  - apply graph_loop_end in H.
    destruct (graph_bracketed self text H) as [Ho Hf].
    assert (bracketed fs) as Hb.
    { eexists. split; [exact Hf|apply graph_inner]. }
    destruct (bracketed_counts fs Hb) as (? & ? & _). done.
Qed.

Lemma framing_bracket_witness :
  (completes (ending (chain_stream faulty_chain "hi")) = true
   ∧ bracketed (frames (trace (Langchain._ainvoke faulty_chain "hi"))))
  ∧ (completes (ending (graph_stream closed_graph "hi")) = true
     ∧ bracketed (frames (trace (Langgraph._ainvoke closed_graph "hi")))).
Proof.
  split; (split; [reflexivity|]).
  - apply (proj1 framing_bracket faulty_chain "hi"). reflexivity.
  - apply (proj2 framing_bracket closed_graph "hi"). reflexivity.
Defined.

Lemma not_bracketed_without_end (fs : list Frame) :
  last fs ≠ Some LLMFullResponseEndFrame → ¬ bracketed fs.
Proof.
  intros H Hb. by destruct (bracketed_counts fs Hb) as (_ & _ & _ & ?).
Qed.

(** C1, as stated, fails: a chain that yields one token and is then
    cancelled leaves the response open. *)
Lemma framing_bracket_open_on_cancel :
  let run := Langchain._ainvoke cancelled_chain "Hello" in
  outcome run = Raised CancelledError
  ∧ frames (trace run) = [LLMFullResponseStartFrame; TextFrame "Hi"]
  ∧ ¬ bracketed (frames (trace run)).
Proof.
  cbv zeta. split; [reflexivity|]. split; [reflexivity|].
  apply not_bracketed_without_end. vm_compute. congruence.
Qed.

(** ** Fault containment *)

Lemma last_diagnostics_cons a t x :
  last (diagnostics t) = Some x → last (diagnostics (a :: t)) = Some x.
Proof.
  intros H. destruct a; try exact H.
  change (last ((level, msg) :: diagnostics t) = Some x).
  destruct (diagnostics t); [done|exact H].
Qed.

Lemma last_diagnostics_app t1 t2 x :
  last (diagnostics t2) = Some x → last (diagnostics (t1 ++ t2)) = Some x.
Proof.
  intros H. induction t1 as [|a t1 IH]; [done|].
  rewrite <- app_comm_cons. by apply last_diagnostics_cons.
Qed.

Lemma last_frames_end (fs mid : list Frame) :
  fs = LLMFullResponseStartFrame :: mid ++ [LLMFullResponseEndFrame] →
  last fs = Some LLMFullResponseEndFrame.
Proof. intros ->. by rewrite app_comm_cons, last_snoc. Qed.

Lemma chain_fault_recorded (self : Langchain.LangchainProcessor) text e :
  ending (chain_stream self text) = Some e → contained e = true →
  last (diagnostics (trace (Langchain._ainvoke self text)))
  = Some (fault_record WARNING ERROR e).
Proof.
  intros He Hc. rewrite chain_ainvoke_eq, He. cbn [trace snd].
  do 3 apply last_diagnostics_cons. apply last_diagnostics_app.
  apply last_diagnostics_cons. by rewrite aftermath_records.
Qed.

Lemma graph_fault_recorded (self : Langgraph.LanggraphProcessor) text e :
  loop_end Langgraph.on_event (graph_stream self text) = Some e →
  contained e = true →
  last (diagnostics (trace (Langgraph._ainvoke self text)))
  = Some (fault_record EXCEPTION EXCEPTION e).
Proof.
  intros He Hc. rewrite graph_ainvoke_eq, He. cbn [trace snd].
  do 3 apply last_diagnostics_cons. do 2 apply last_diagnostics_app.
  by rewrite aftermath_records.
Qed.

Lemma graph_loop_fault (s : Stream Langgraph.StreamEvent) e :
  ending s = Some e → contained e = true →
  ∃ e', loop_end Langgraph.on_event s = Some e' ∧ contained e' = true
        ∧ (reaches_end Langgraph.on_event s = true → e' = e).
Proof.
  induction s as [|e0|x rest IH]; cbn [ending loop_end reaches_end]; [done|..].
  - intros [= ->] Hc. eauto.
  - intros He Hc.
    destruct (outcome (Langgraph.on_event x)) as [[]|e''] eqn:Hx; [auto|].
    exists e''. split; [done|]. split; [|done].
    apply on_event_raises in Hx. unfold contained.
    rewrite Hx. apply orb_true_r.
Qed.

(** C2 (amended). For every invocation, a fault raised by the backend's
    element stream while it is drained does not escape [_ainvoke] when it
    is a [GeneratorExit] or an instance of [Exception]: the invocation
    returns, the fault is only recorded in the log (the last record) and
    the last frame pushed is [LLMFullResponseEndFrame]. In the graph tier
    the record is that of the fault that ended the loop, which is the
    stream's own unless an event handler raised before. A chain that
    yields "Hi" and then raises such a fault produces exactly
    ResponseStart, TextChunk("Hi"), ResponseEnd. *)
Theorem fault_containment :
  (∀ (self : Langchain.LangchainProcessor) (text : string) e,
     ending (chain_stream self text) = Some e → contained e = true →
     outcome (Langchain._ainvoke self text) = Returned tt
     ∧ last (frames (trace (Langchain._ainvoke self text)))
       = Some LLMFullResponseEndFrame
     ∧ last (diagnostics (trace (Langchain._ainvoke self text)))
       = Some (fault_record WARNING ERROR e))
  ∧ (∀ (self : Langgraph.LanggraphProcessor) (text : string) e,
       ending (graph_stream self text) = Some e → contained e = true →
       outcome (Langgraph._ainvoke self text) = Returned tt
       ∧ last (frames (trace (Langgraph._ainvoke self text)))
         = Some LLMFullResponseEndFrame
       ∧ ∃ e', contained e' = true
           ∧ last (diagnostics (trace (Langgraph._ainvoke self text)))
             = Some (fault_record EXCEPTION EXCEPTION e')
           ∧ (reaches_end Langgraph.on_event (graph_stream self text) = true
              → e' = e))
  ∧ (∀ (self : Langchain.LangchainProcessor) (text : string) e,
       chain_stream self text = Yield (PyStr "Hi") (Raises e) →
       contained e = true →
       outcome (Langchain._ainvoke self text) = Returned tt
       ∧ frames (trace (Langchain._ainvoke self text))
         = [LLMFullResponseStartFrame; TextFrame "Hi"; LLMFullResponseEndFrame]).
Proof.
  split; [|split].
  - intros self text e He Hc.
    assert (completes (ending (chain_stream self text)) = true) as H
      by (by rewrite He).
    destruct (chain_bracketed self text H) as [Ho Hf].
    split; [done|]. split; [by eapply last_frames_end|].
    by apply chain_fault_recorded.
  - intros self text e He Hc.
    destruct (graph_loop_fault _ e He Hc) as (e' & He' & Hc' & Hsame).
    assert (completes (loop_end Langgraph.on_event (graph_stream self text))
            = true) as H by (by rewrite He').
    destruct (graph_bracketed self text H) as [Ho Hf].
    split; [done|]. split; [by eapply last_frames_end|].
    exists e'. split; [done|]. split; [|done].
    by apply graph_fault_recorded.
  - intros self text e Hs Hc.
    assert (completes (ending (chain_stream self text)) = true) as H
      by (by rewrite Hs).
    destruct (chain_bracketed self text H) as [Ho Hf].
    split; [done|]. rewrite Hf, Hs. done.
Qed.

Lemma fault_containment_witness :
  (ending (chain_stream faulty_chain "hi") = Some (Exception (Error "boom"))
   ∧ contained (Exception (Error "boom")) = true
   ∧ outcome (Langchain._ainvoke faulty_chain "hi") = Returned tt
   ∧ frames (trace (Langchain._ainvoke faulty_chain "hi"))
     = [LLMFullResponseStartFrame; TextFrame "Hi"; LLMFullResponseEndFrame]
   ∧ last (diagnostics (trace (Langchain._ainvoke faulty_chain "hi")))
     = Some (ERROR, An_unknown_error_occurred (Exception (Error "boom"))))
  ∧ (ending (graph_stream closed_graph "hi") = Some GeneratorExit
     ∧ contained GeneratorExit = true
     ∧ outcome (Langgraph._ainvoke closed_graph "hi") = Returned tt
     ∧ last (frames (trace (Langgraph._ainvoke closed_graph "hi")))
       = Some LLMFullResponseEndFrame).
Proof.
  destruct fault_containment as (Hchain & Hgraph & Hscen).
  split.
  - split; [reflexivity|]. split; [reflexivity|].
    destruct (Hscen faulty_chain "hi" (Exception (Error "boom")))
      as [Ho Hf]; [reflexivity..|].
    destruct (Hchain faulty_chain "hi" (Exception (Error "boom")))
      as (_ & _ & Hd); [reflexivity..|].
    split; [exact Ho|]. split; [exact Hf|exact Hd].
  - split; [reflexivity|]. split; [reflexivity|].
    destruct (Hgraph closed_graph "hi" GeneratorExit)
      as (Ho & Hf & _); [reflexivity..|].
    split; [exact Ho|exact Hf].
Defined.

(** C2, as stated, fails: when the chain yields "Hi" and the stream is
    then cancelled, the fault surfaces to the caller of [_ainvoke] and no
    end marker follows the text. *)
Lemma fault_escapes_on_cancel :
  let run := Langchain._ainvoke cancelled_chain "hi" in
  ending (chain_stream cancelled_chain "hi") = Some CancelledError
  ∧ outcome run = Raised CancelledError
  ∧ frames (trace run) = [LLMFullResponseStartFrame; TextFrame "Hi"]
  ∧ outcome run ≠ Returned tt.
Proof. cbv zeta. repeat split; [reflexivity..|vm_compute; congruence]. Qed.

(** ** Elements of an unrecognised shape *)

Lemma elements_prepend {E} (l : list E) (s : Stream E) :
  elements (prepend l s) = l ++ elements s.
Proof. induction l as [|x l IH]; [done|]. cbn. by rewrite IH. Qed.

Lemma ending_prepend {E} (l : list E) (s : Stream E) :
  ending (prepend l s) = ending s.
Proof. induction l as [|x l IH]; [done|]. exact IH. Qed.

Lemma unrecognised_token (v : Any) :
  (∀ s, v ≠ PyStr s) → (∀ c, v ≠ PyChunk c) →
  Langchain.__get_token_value v = "" ∧ Langgraph.__get_token_value v = "".
Proof. intros Hs Hc. destruct v; try done; [by destruct (Hs s)|by destruct (Hc c)]. Qed.

Lemma unknown_kind_ignored (ev : Langgraph.StreamEvent) :
  known_kind (Langgraph.event ev) = false →
  Langgraph.on_event ev = (Returned tt, []).
Proof.
  unfold known_kind. rewrite on_event_eq. intros H.
  repeat (apply orb_false_elim in H as [H ?]).
  by repeat match goal with Hk : _ = false |- _ => rewrite Hk; clear Hk end.
Qed.

Lemma skip_silent_element {E X} (body : E → M unit) (f : E → list X)
    (l : list E) (x : E) (s : Stream E) :
  body x = (Returned tt, []) → f x = [] →
  flat_map f (drawn body (prepend l (Yield x s)))
  = flat_map f (drawn body (prepend l s))
  ∧ loop_end body (prepend l (Yield x s)) = loop_end body (prepend l s)
  ∧ reaches_end body (prepend l (Yield x s)) = reaches_end body (prepend l s).
Proof.
  intros Hx Hf. induction l as [|y l (IH1 & IH2 & IH3)].
  - cbn [prepend drawn loop_end reaches_end flat_map]. by rewrite Hx, Hf.
  - cbn [prepend drawn loop_end reaches_end flat_map].
    destruct (outcome (body y)); [|done]. by rewrite IH1, IH2, IH3.
Qed.

(** C3 (amended). An element of an unrecognised shape yields no tool
    result and no text, and does not abort the stream. In the simple tier
    an element that is neither a [str] nor an [AIMessageChunk] produces
    exactly one [TextFrame], whose text is empty; the elements after it
    still produce their frames and the invocation ends as the rest of the
    stream makes it end, with its bracket closed whenever that ending is
    exhaustion or a contained fault. In the graph tier an event of a kind
    without a case of its own produces nothing at all: the frames and the
    outcome of the invocation are those of the same stream without it. *)
Theorem malformed_element :
  (∀ (self : Langchain.LangchainProcessor) (text : string)
     (pre : list Any) (x : Any) (rest : Stream Any),
     chain_stream self text = prepend pre (Yield x rest) →
     (∀ s, x ≠ PyStr s) → (∀ c, x ≠ PyChunk c) →
     frames (trace (Langchain._ainvoke self text))
     = LLMFullResponseStartFrame
       :: (chain_frame <$> pre)
       ++ TextFrame ""
       :: (chain_frame <$> elements rest)
       ++ frames (trace (aftermath WARNING ERROR (ending rest)))
     ∧ outcome (Langchain._ainvoke self text)
       = outcome (aftermath WARNING ERROR (ending rest))
     ∧ (completes (ending rest) = true →
        outcome (Langchain._ainvoke self text) = Returned tt
        ∧ bracketed (frames (trace (Langchain._ainvoke self text)))))
  ∧ (∀ (self self' : Langgraph.LanggraphProcessor) (text : string)
       (pre : list Langgraph.StreamEvent) (ev : Langgraph.StreamEvent)
       (rest : Stream Langgraph.StreamEvent),
       graph_stream self text = prepend pre (Yield ev rest) →
       graph_stream self' text = prepend pre rest →
       known_kind (Langgraph.event ev) = false →
       Langgraph.on_event ev = (Returned tt, [])
       ∧ frames (trace (Langgraph._ainvoke self text))
         = frames (trace (Langgraph._ainvoke self' text))
       ∧ outcome (Langgraph._ainvoke self text)
         = outcome (Langgraph._ainvoke self' text)).
Proof.
  split.
  - intros self text pre x rest Hs Hstr Hchunk.
    assert (chain_frame x = TextFrame "") as Hx.
    { unfold chain_frame. by destruct (unrecognised_token x Hstr Hchunk) as [-> _]. }
    split; [|split].
    + rewrite chain_frames, Hs, elements_prepend, ending_prepend.
      cbn [elements]. rewrite fmap_app, fmap_cons, Hx.
      by rewrite <- !app_assoc.
    + rewrite chain_ainvoke_eq, Hs, ending_prepend. done.
    + intros Hc.
      assert (completes (ending (chain_stream self text)) = true) as H
        by (by rewrite Hs, ending_prepend).
      destruct (chain_bracketed self text H) as [Ho Hf].
      split; [done|]. eexists. split; [exact Hf|apply chain_inner].
  - intros self self' text pre ev rest Hs Hs' Hk.
    pose proof (unknown_kind_ignored ev Hk) as Hev.
    destruct (skip_silent_element Langgraph.on_event
                (λ x, frames (trace (Langgraph.on_event x))) pre ev rest Hev)
      as (Hd & He & _); [by rewrite Hev|].
    split; [done|]. split.
    + rewrite !graph_frames, Hs, Hs', Hd, He. done.
    + rewrite !graph_ainvoke_eq, Hs, Hs', He. done.
Qed.

Lemma malformed_element_witness :
  (chain_stream odd_chain "hi"
   = prepend [PyStr "a"] (Yield (PyInt 7) (Yield (PyStr "b") Exhausted))
   ∧ frames (trace (Langchain._ainvoke odd_chain "hi"))
     = [LLMFullResponseStartFrame; TextFrame "a"; TextFrame ""; TextFrame "b";
        LLMFullResponseEndFrame])
  ∧ (known_kind (Langgraph.event custom_event) = false
     ∧ frames (trace (Langgraph._ainvoke odd_graph "hi"))
       = frames (trace (Langgraph._ainvoke plain_graph "hi"))).
Proof.
  split; (split; [reflexivity|]).
  - apply (proj1 malformed_element odd_chain "hi" [PyStr "a"] (PyInt 7)
             (Yield (PyStr "b") Exhausted));
      [reflexivity|discriminate|discriminate].
  - apply (proj2 malformed_element odd_graph plain_graph "hi"
             [model_stream (PyStr "a")] custom_event
             (Yield (model_stream (PyStr "b")) Exhausted));
      reflexivity.
Defined.

(** C3, as stated, fails in the simple tier: an element that is neither
    a string nor a message chunk is pushed downstream as a text chunk. *)
Lemma malformed_element_emits_text :
  let run := Langchain._ainvoke (chain_yielding [PyNone] Exhausted) "hi" in
  payload (trace run) = [TextFrame ""]
  ∧ frames (trace run)
    = [LLMFullResponseStartFrame; TextFrame ""; LLMFullResponseEndFrame]
  ∧ payload (trace run) ≠ [].
Proof. cbv zeta. repeat split; [reflexivity..|vm_compute; congruence]. Qed.

(** ** Order of the payload *)

Lemma aftermath_exchanges warn err o :
  exchanges (trace (aftermath warn err o))
  = if completes o then [Push LLMFullResponseEndFrame DOWNSTREAM] else [].
Proof. destruct o as [[| | | |c]|]; done. Qed.

Lemma filter_payload_chain (l : list Any) :
  List.filter is_payload (chain_frame <$> l) = chain_frame <$> l.
Proof. induction l as [|x l IH]; [done|]. cbn. by rewrite IH. Qed.

Lemma chain_payload (self : Langchain.LangchainProcessor) (text : string) :
  payload (trace (Langchain._ainvoke self text))
  = chain_frame <$> elements (chain_stream self text).
Proof.
  unfold payload. rewrite chain_frames. cbn [List.filter is_payload].
  rewrite List.filter_app, filter_payload_chain.
  destruct (aftermath_quiet WARNING ERROR (ending (chain_stream self text)))
    as [Hq _].
  unfold payload in Hq. rewrite Hq. apply app_nil_r.
Qed.

Lemma graph_payload (self : Langgraph.LanggraphProcessor) (text : string) :
  payload (trace (Langgraph._ainvoke self text))
  = flat_map (λ x, payload (trace (Langgraph.on_event x)))
      (drawn Langgraph.on_event (graph_stream self text)).
Proof.
  unfold payload. rewrite graph_frames. cbn [List.filter is_payload].
  rewrite List.filter_app, filter_flat_map.
  destruct (aftermath_quiet EXCEPTION EXCEPTION
              (loop_end Langgraph.on_event (graph_stream self text))) as [Hq _].
  unfold payload in Hq. rewrite Hq. apply app_nil_r.
Qed.

Lemma chain_exchanges (self : Langchain.LangchainProcessor) (text : string) :
  exchanges (trace (Langchain._ainvoke self text))
  = Push LLMFullResponseStartFrame DOWNSTREAM
    :: flat_map (λ x, [Anext; Push (chain_frame x) DOWNSTREAM])
         (elements (chain_stream self text))
    ++ Anext
    :: (if completes (ending (chain_stream self text))
        then [Push LLMFullResponseEndFrame DOWNSTREAM] else []).
Proof.
  rewrite chain_ainvoke_eq. cbn [trace snd].
  change (exchanges (?a :: ?b :: ?c :: ?t)) with (b :: exchanges t).
  f_equal. rewrite exchanges_app, exchanges_flat_map. f_equal.
  change (exchanges (Anext :: ?t)) with (Anext :: exchanges t).
  by rewrite aftermath_exchanges.
Qed.

Lemma graph_exchanges (self : Langgraph.LanggraphProcessor) (text : string) :
  exchanges (trace (Langgraph._ainvoke self text))
  = Push LLMFullResponseStartFrame DOWNSTREAM
    :: flat_map (λ x, Anext :: exchanges (trace (Langgraph.on_event x)))
         (drawn Langgraph.on_event (graph_stream self text))
    ++ (if reaches_end Langgraph.on_event (graph_stream self text)
        then [Anext] else [])
    ++ (if completes (loop_end Langgraph.on_event (graph_stream self text))
        then [Push LLMFullResponseEndFrame DOWNSTREAM] else []).
Proof.
  rewrite graph_ainvoke_eq. cbn [trace snd].
  change (exchanges (?a :: ?b :: ?c :: ?t)) with (b :: exchanges t).
  f_equal. rewrite !exchanges_app, exchanges_flat_map, aftermath_exchanges.
  f_equal. f_equal. by destruct (reaches_end _ _).
Qed.

(** C4 (amended). The payload frames (text chunks and tool results) an
    invocation pushes are the concatenation, in stream order, of what
    each element drawn from the backend stream translates to. In the
    simple tier every element of the stream is drawn and gives one
    [TextFrame]. In the graph tier the events drawn are those up to and
    including the first whose handler raises, each giving the payload of
    its handler; they are all the events of the stream whenever every
    handler returns. The frames of an element are pushed after that
    element has been requested and before the next one is: pushes and
    requests alternate element by element, and nothing is reordered. *)
Theorem order_preservation :
  (∀ (self : Langchain.LangchainProcessor) (text : string),
     payload (trace (Langchain._ainvoke self text))
     = chain_frame <$> elements (chain_stream self text)
     ∧ exchanges (trace (Langchain._ainvoke self text))
       = Push LLMFullResponseStartFrame DOWNSTREAM
         :: flat_map (λ x, [Anext; Push (chain_frame x) DOWNSTREAM])
              (elements (chain_stream self text))
         ++ Anext
         :: (if completes (ending (chain_stream self text))
             then [Push LLMFullResponseEndFrame DOWNSTREAM] else []))
  ∧ (∀ (self : Langgraph.LanggraphProcessor) (text : string),
       payload (trace (Langgraph._ainvoke self text))
       = flat_map (λ x, payload (trace (Langgraph.on_event x)))
           (drawn Langgraph.on_event (graph_stream self text))
       ∧ exchanges (trace (Langgraph._ainvoke self text))
         = Push LLMFullResponseStartFrame DOWNSTREAM
           :: flat_map (λ x, Anext :: exchanges (trace (Langgraph.on_event x)))
                (drawn Langgraph.on_event (graph_stream self text))
           ++ (if reaches_end Langgraph.on_event (graph_stream self text)
               then [Anext] else [])
           ++ (if completes (loop_end Langgraph.on_event (graph_stream self text))
               then [Push LLMFullResponseEndFrame DOWNSTREAM] else [])
       ∧ (Forall (λ x, outcome (Langgraph.on_event x) = Returned tt)
            (elements (graph_stream self text)) →
          drawn Langgraph.on_event (graph_stream self text)
          = elements (graph_stream self text))).
Proof.
  split.
  - intros self text. split; [apply chain_payload|apply chain_exchanges].
  - intros self text. split; [apply graph_payload|].
    split; [apply graph_exchanges|].
    intros H. by destruct (drawn_all Langgraph.on_event _ H) as [-> _].
Qed.

Lemma order_preservation_witness :
  drawn Langgraph.on_event
    (graph_stream
       (graph_yielding
          [model_stream (PyStr "A"); retriever_end [D1]; model_stream (PyStr "C")]
          Exhausted) "hi")
  = [model_stream (PyStr "A"); retriever_end [D1]; model_stream (PyStr "C")]
  ∧ payload (trace (Langgraph._ainvoke
      (graph_yielding
         [model_stream (PyStr "A"); retriever_end [D1]; model_stream (PyStr "C")]
         Exhausted) "hi"))
    = [TextFrame "A"; ToolResultMessage (PyDocDict D1) "tool_result";
       TextFrame "C"].
Proof.
  split.
  - apply (proj2 (proj2 (proj2 order_preservation
      (graph_yielding
         [model_stream (PyStr "A"); retriever_end [D1]; model_stream (PyStr "C")]
         Exhausted) "hi"))).
    repeat constructor.
  - rewrite (proj1 (proj2 order_preservation
      (graph_yielding
         [model_stream (PyStr "A"); retriever_end [D1]; model_stream (PyStr "C")]
         Exhausted) "hi")).
    reflexivity.
Defined.

(** C4, as stated, fails in the graph tier: after a model event without a
    chunk the loop is over, and the events that follow it in the stream
    give no payload. *)
Lemma payload_stops_at_handler_fault :
  let run := Langgraph._ainvoke truncated_graph "hi" in
  let translations :=
    flat_map (λ x, payload (trace (Langgraph.on_event x)))
      (elements (graph_stream truncated_graph "hi")) in
  elements (graph_stream truncated_graph "hi")
  = [chunkless_event; model_stream (PyStr "b"); retriever_end [D1]]
  ∧ translations
    = [TextFrame "b"; ToolResultMessage (PyDocDict D1) "tool_result"]
  ∧ payload (trace run) = []
  ∧ payload (trace run) ≠ translations.
Proof.
  cbv zeta. split; [reflexivity|]. split; [vm_compute; reflexivity|].
  split; [vm_compute; reflexivity|]. vm_compute. congruence.
Qed.


(** ** The token extractor *)

(** C5. [__get_token_value], in either processor, is a total function
    into strings: it returns a [str] element unchanged, the [content] of
    an [AIMessageChunk], and the empty string for a value of any other
    shape. A string and a chunk that carry the same text therefore give
    the same result. *)
Theorem token_extractor :
  (∀ s : string,
     Langchain.__get_token_value (PyStr s) = s
     ∧ Langgraph.__get_token_value (PyStr s) = s)
  ∧ (∀ c : AIMessageChunk,
       Langchain.__get_token_value (PyChunk c) = content c
       ∧ Langgraph.__get_token_value (PyChunk c) = content c)
  ∧ (∀ v : Any,
       (∀ s, v ≠ PyStr s) → (∀ c, v ≠ PyChunk c) →
       Langchain.__get_token_value v = ""
       ∧ Langgraph.__get_token_value v = "")
  ∧ (∀ t : string,
       Langchain.__get_token_value (PyStr t)
       = Langchain.__get_token_value (PyChunk {| content := t |})
       ∧ Langgraph.__get_token_value (PyStr t)
         = Langgraph.__get_token_value (PyChunk {| content := t |})).
Proof.
  split; [done|]. split; [done|]. split; [|done].
  apply unrecognised_token.
Qed.

Lemma token_extractor_witness :
  Langchain.__get_token_value (PyInt 7) = ""
  ∧ Langgraph.__get_token_value (PyInt 7) = "".
Proof.
  apply (proj1 (proj2 (proj2 token_extractor)) (PyInt 7)); discriminate.
Defined.

(** ** The event classifier *)

Lemma pushed_fmap_push {E} (f : E → Frame) (l : list E) :
  pushed ((λ x, Push (f x) DOWNSTREAM) <$> l) = (λ x, (f x, DOWNSTREAM)) <$> l.
Proof. induction l as [|x l IH]; [done|]. cbn. by rewrite <- IH. Qed.

(** C6 (amended). In the graph tier an [on_chat_model_stream] event
    that carries a chunk pushes exactly [LLMResponseStartFrame], one
    [TextFrame] with the text extracted from the chunk, and
    [LLMResponseEndFrame]; an [on_tool_start] event pushes nothing and
    only logs; an [on_retriever_end] event whose output is a dict that
    holds documents pushes exactly one [ToolResultMessage] per document,
    in the order of the documents; an event of any other kind does
    nothing and does not raise. For the
    stream of a tool start, a model chunk "42" and a retriever end with
    two documents, the frames pushed are ResponseStart, SubResponseStart,
    TextChunk("42"), SubResponseEnd, ToolResult(D1), ToolResult(D2),
    ResponseEnd. *)
Theorem event_classifier :
  (∀ (ev : Langgraph.StreamEvent) (c : Any),
     Langgraph.event ev = "on_chat_model_stream" →
     Langgraph.chunk (Langgraph.data ev) = Some c →
     Langgraph.on_event ev
     = (Returned tt,
        [Push LLMResponseStartFrame DOWNSTREAM;
         Push (TextFrame (Langgraph.__get_token_value c)) DOWNSTREAM;
         Push LLMResponseEndFrame DOWNSTREAM]))
  ∧ (∀ ev : Langgraph.StreamEvent,
       Langgraph.event ev = "on_tool_start" →
       outcome (Langgraph.on_event ev) = Returned tt
       ∧ pushed (trace (Langgraph.on_event ev)) = []
       ∧ diagnostics (trace (Langgraph.on_event ev))
         = [(DEBUG, Starting_tool (Langgraph.name ev)
                      (default PyNone (Langgraph.input (Langgraph.data ev))))])
  ∧ (∀ (ev : Langgraph.StreamEvent) (out : gmap string (list Document))
       (docs : list Document),
       Langgraph.event ev = "on_retriever_end" →
       Langgraph.output (Langgraph.data ev) = Some (Langgraph.OutputDict out) →
       out !! "documents" = Some docs →
       outcome (Langgraph.on_event ev) = Returned tt
       ∧ pushed (trace (Langgraph.on_event ev))
         = (λ d, (ToolResultMessage (PyDocDict d) "tool_result", DOWNSTREAM))
             <$> docs)
  ∧ (∀ ev : Langgraph.StreamEvent,
       Langgraph.event ev ≠ "on_chat_model_stream" →
       Langgraph.event ev ≠ "on_tool_start" →
       Langgraph.event ev ≠ "on_retriever_end" →
       Langgraph.on_event ev = (Returned tt, []))
  ∧ (∀ (self : Langgraph.LanggraphProcessor) (text tool : string)
       (args : Any) (d1 d2 : Document),
       graph_stream self text
       = prepend [tool_start tool args; model_stream (PyStr "42");
                  retriever_end [d1; d2]] Exhausted →
       outcome (Langgraph._ainvoke self text) = Returned tt
       ∧ frames (trace (Langgraph._ainvoke self text))
         = [LLMFullResponseStartFrame;
            LLMResponseStartFrame; TextFrame "42"; LLMResponseEndFrame;
            ToolResultMessage (PyDocDict d1) "tool_result";
            ToolResultMessage (PyDocDict d2) "tool_result";
            LLMFullResponseEndFrame]).
Proof.
  split; [|split; [|split; [|split]]].
  - intros ev c Hk Hc. by rewrite on_event_eq, Hk, Hc.
  - intros ev Hk. by rewrite on_event_eq, Hk.
  - intros ev out docs Hk Ho Hd. rewrite on_event_eq, Hk, Ho, Hd.
    split; [done|].
    exact (pushed_fmap_push (λ d, ToolResultMessage_ (PyDocDict d)) docs).
  - intros ev H1 H2 H3. rewrite on_event_eq.
    apply String.eqb_neq in H1, H2, H3. rewrite H1, H2, H3.
    by destruct (Langgraph.event ev =? "on_tool_end")%string.
  - intros self text tool args d1 d2 Hs.
    rewrite graph_frames, graph_ainvoke_eq, Hs. split; reflexivity.
Qed.

Lemma event_classifier_witness :
  frames (trace (Langgraph._ainvoke mixed_graph "hi"))
  = [LLMFullResponseStartFrame;
     LLMResponseStartFrame; TextFrame "42"; LLMResponseEndFrame;
     ToolResultMessage (PyDocDict D1) "tool_result";
     ToolResultMessage (PyDocDict D2) "tool_result";
     LLMFullResponseEndFrame]
  ∧ Langgraph.on_event custom_event = (Returned tt, [])
  ∧ pushed (trace (Langgraph.on_event (tool_start "search" PyNone))) = []
  ∧ pushed (trace (Langgraph.on_event (retriever_end [D1; D2])))
    = [(ToolResultMessage (PyDocDict D1) "tool_result", DOWNSTREAM);
       (ToolResultMessage (PyDocDict D2) "tool_result", DOWNSTREAM)]
  ∧ Langgraph.on_event (model_stream (PyChunk {| content := "42" |}))
    = (Returned tt,
       [Push LLMResponseStartFrame DOWNSTREAM; Push (TextFrame "42") DOWNSTREAM;
        Push LLMResponseEndFrame DOWNSTREAM]).
Proof.
  destruct event_classifier as (Hmodel & Htool & Hretr & Hother & Hscen).
  split; [|split; [|split; [|split]]].
  - apply (Hscen mixed_graph "hi" "search" (PyStr "pipecat") D1 D2).
    reflexivity.
  - apply (Hother custom_event); discriminate.
  - apply (Htool (tool_start "search" PyNone)). reflexivity.
  - apply (Hretr (retriever_end [D1; D2]) {[ "documents" := [D1; D2] ]} [D1; D2]);
      reflexivity.
  - apply (Hmodel (model_stream (PyChunk {| content := "42" |}))
             (PyChunk {| content := "42" |})); reflexivity.
Defined.

(** C6, as stated, fails for a model event that has no chunk: only the
    opening frame of the triple is pushed, and the handler raises. *)
Lemma model_event_without_chunk :
  Langgraph.event chunkless_event = "on_chat_model_stream"
  ∧ Langgraph.on_event chunkless_event
    = (Raised (Exception (KeyError "chunk")),
       [Push LLMResponseStartFrame DOWNSTREAM])
  ∧ frames (trace (Langgraph.on_event chunkless_event)) = [LLMResponseStartFrame]
  ∧ outcome (Langgraph.on_event chunkless_event) ≠ Returned tt.
Proof.
  split; [reflexivity|]. split; [reflexivity|]. split; [reflexivity|].
  vm_compute. congruence.
Qed.


(** ** Stripping *)

Lemma lstrip_spec (s : string) :
  ∃ l, s = l +:+ lstrip s ∧ all_space l = true.
Proof.
  induction s as [|c s (l & IH & Hl)]; [by exists ""|].
  cbn [lstrip]. destruct (isspace c) eqn:Hc.
  - exists (String c l). split; [|cbn; by rewrite Hc].
    change (String c s = String c (l +:+ lstrip s)). by f_equal.
  - by exists "".
Qed.

Lemma lstrip_head (s : string) c t :
  lstrip s = String c t → isspace c = false.
Proof.
  induction s as [|a s IH]; [done|].
  cbn [lstrip]. destruct (isspace a) eqn:Ha; [done|]. by intros [= <- _].
Qed.

Lemma rstrip_spec (s : string) :
  ∃ r, s = rstrip s +:+ r ∧ all_space r = true.
Proof.
  induction s as [|c s (r & IH & Hr)]; [by exists ""|].
  cbn [rstrip]. destruct (rstrip s) as [|b u].
  - destruct (isspace c) eqn:Hc.
    + exists (String c s). split; [done|]. cbn. rewrite Hc.
      change (s = r) in IH. by rewrite IH.
    + exists s. split; [done|]. change (s = r) in IH. by rewrite IH.
  - exists r. split; [|done].
    change (String c s = String c (String b u +:+ r)). by f_equal.
Qed.

Lemma rstrip_last (s : string) t c :
  rstrip s = t +:+ String c "" → isspace c = false.
Proof.
  revert t. induction s as [|a s IH]; intros t.
  - by destruct t.
  - cbn [rstrip]. destruct (rstrip s) as [|b u].
    + destruct (isspace a) eqn:Ha; [by destruct t|].
      destruct t as [|a' t]; [by intros [= <-]|].
      intros [= _ H]. by destruct t.
    + destruct t as [|a' t]; [done|].
      intros [= _ H]. by apply (IH t).
Qed.

Lemma rstrip_head (c : ascii) (t : string) :
  isspace c = false → ∃ t', rstrip (String c t) = String c t'.
Proof.
  intros Hc. cbn [rstrip]. destruct (rstrip t); rewrite ?Hc; eauto.
Qed.

(** [strip] removes a run of white space at each end, and leaves a
    string that neither starts nor ends with white space. *)
Lemma strip_spec (s : string) :
  (∃ l r, s = l +:+ strip s +:+ r ∧ all_space l = true ∧ all_space r = true)
  ∧ (∀ c t, strip s = String c t → isspace c = false)
  ∧ (∀ t c, strip s = t +:+ String c "" → isspace c = false).
Proof.
  unfold strip. split; [|split].
  - destruct (lstrip_spec s) as (l & Hs & Hl).
    destruct (rstrip_spec (lstrip s)) as (r & Hm & Hr).
    exists l, r. split; [|done]. by rewrite <- Hm.
  - intros c t H. destruct (lstrip s) as [|a u] eqn:Hl; [done|].
    pose proof (lstrip_head s a u Hl) as Ha.
    destruct (rstrip_head a u Ha) as (t' & Ht). rewrite Ht in H.
    by injection H as <- _.
  - intros t c. apply rstrip_last.
Qed.

(** ** The trigger *)

Lemma list_getitem_last {A} (l : list A) :
  list_getitem l (-1) = or_raise (last l) (Exception IndexError).
Proof.
  unfold list_getitem. cbn [Z.ltb Z.compare].
  destruct l as [|x l]; [done|].
  rewrite last_lookup.
  replace (Z.to_nat (-1 + Z.of_nat (length (x :: l)))) with (pred (length (x :: l)))
    by (cbn [length]; lia).
  destruct (_ || _)%bool eqn:Hb.
  - exfalso. apply orb_true_iff in Hb as [Hb|Hb]; cbn [length] in Hb.
    + apply Z.ltb_lt in Hb. lia.
    + apply Z.leb_le in Hb. lia.
  - done.
Qed.

Lemma chain_trigger (self : Langchain.LangchainProcessor) msgs m c d :
  last msgs = Some m → m !! "content" = Some (PyStr c) →
  Langchain.process_frame self (LLMMessagesFrame msgs) d
  = (logger DEBUG (Got_transcription_frame (LLMMessagesFrame msgs));;
     Langchain._ainvoke self (strip c)).
Proof.
  intros Hm Hc. unfold Langchain.process_frame.
  rewrite list_getitem_last, Hm. cbn [or_raise]. rewrite ret_bind.
  unfold dict_getitem. rewrite Hc. cbn [or_raise]. rewrite ret_bind.
  cbn [strip_method]. by rewrite ret_bind.
Qed.

Lemma graph_trigger (self : Langgraph.LanggraphProcessor) msgs m c d :
  last msgs = Some m → m !! "content" = Some (PyStr c) →
  Langgraph.process_frame self (LLMMessagesFrame msgs) d
  = (logger DEBUG (Got_transcription_frame (LLMMessagesFrame msgs));;
     Langgraph._ainvoke self (strip c)).
Proof.
  intros Hm Hc. unfold Langgraph.process_frame.
  rewrite list_getitem_last, Hm. cbn [or_raise]. rewrite ret_bind.
  unfold dict_getitem. rewrite Hc. cbn [or_raise]. rewrite ret_bind.
  cbn [strip_method]. by rewrite ret_bind.
Qed.

Lemma astream_calls_flat_map {E} (f : E → list Action) (l : list E) :
  (∀ x, astream_calls (f x) = []) → astream_calls (flat_map f l) = [].
Proof.
  intros H. induction l as [|x l IH]; [done|].
  cbn [flat_map]. by rewrite astream_calls_app, H, IH.
Qed.

Lemma events_calls_flat_map {E} (f : E → list Action) (l : list E) :
  (∀ x, events_calls (f x) = []) → events_calls (flat_map f l) = [].
Proof.
  intros H. induction l as [|x l IH]; [done|].
  cbn [flat_map]. by rewrite events_calls_app, H, IH.
Qed.

Lemma chain_calls_once (self : Langchain.LangchainProcessor) (text : string) :
  astream_calls (trace (Langchain._ainvoke self text)) = [chain_call self text].
Proof.
  rewrite chain_ainvoke_eq. cbn [trace snd].
  change (astream_calls (?a :: ?b :: Astream ?c :: ?t)) with (c :: astream_calls t).
  f_equal. rewrite astream_calls_app, astream_calls_flat_map by done.
  change (astream_calls (Anext :: ?t)) with (astream_calls t).
  by destruct (aftermath_quiet WARNING ERROR (ending (chain_stream self text)))
    as (_ & -> & _).
Qed.

Lemma on_event_calls_nothing (ev : Langgraph.StreamEvent) :
  events_calls (Anext :: trace (Langgraph.on_event ev)) = [].
Proof.
  rewrite on_event_eq.
  repeat match goal with
         | |- context [if ?b then _ else _] => destruct b
         | |- context [match ?o with Some _ => _ | None => _ end] => destruct o
         | |- context [match ?o with Langgraph.OutputDict _ => _ | _ => _ end] =>
             destruct o
         end; try done.
  cbn [trace snd]. change (events_calls (Anext :: Log ?l ?m :: ?t)) with (events_calls t).
  induction l as [|x l IH]; done.
Qed.

Lemma graph_calls_once (self : Langgraph.LanggraphProcessor) (text : string) :
  events_calls (trace (Langgraph._ainvoke self text)) = [graph_call self text].
Proof.
  rewrite graph_ainvoke_eq. cbn [trace snd].
  change (events_calls (?a :: ?b :: AstreamEvents ?c :: ?t))
    with (c :: events_calls t).
  f_equal. rewrite !events_calls_app.
  rewrite events_calls_flat_map by apply on_event_calls_nothing.
  destruct (aftermath_quiet EXCEPTION EXCEPTION
              (loop_end Langgraph.on_event (graph_stream self text)))
    as (_ & _ & ->).
  by destruct (reaches_end _ _).
Qed.

Lemma aftermath_no_trigger warn err o :
  Forall (λ f, is_trigger f = false) (frames (trace (aftermath warn err o))).
Proof. destruct o as [[| | | |c]|]; cbn; by repeat constructor. Qed.

Lemma inner_no_trigger (l : list Frame) :
  Forall (λ f, is_inner f = true) l → Forall (λ f, is_trigger f = false) l.
Proof. intros H. eapply Forall_impl; [exact H|]. by intros []. Qed.

Lemma chain_no_trigger (self : Langchain.LangchainProcessor) (text : string) :
  Forall (λ f, is_trigger f = false) (frames (trace (Langchain._ainvoke self text))).
Proof.
  rewrite chain_frames. constructor; [done|]. apply Forall_app. split.
  - apply inner_no_trigger, chain_inner.
  - apply aftermath_no_trigger.
Qed.

Lemma graph_no_trigger (self : Langgraph.LanggraphProcessor) (text : string) :
  Forall (λ f, is_trigger f = false) (frames (trace (Langgraph._ainvoke self text))).
Proof.
  rewrite graph_frames. constructor; [done|]. apply Forall_app. split.
  - apply inner_no_trigger, graph_inner.
  - apply aftermath_no_trigger.
Qed.

Lemma hello_content : hello_message !! "content" = Some (PyStr "  Hello  ").
Proof. vm_compute. reflexivity. Qed.

Lemma no_trigger_not_elem (msgs : list (gmap string Any)) (fs : list Frame) :
  Forall (λ f, is_trigger f = false) fs → LLMMessagesFrame msgs ∉ fs.
Proof.
  intros H Hin. rewrite Forall_forall in H. by apply H in Hin.
Qed.

(** C7 (amended). For a trigger frame whose message list is not empty
    and whose last message has a [str] under ["content"],
    [process_frame] of either processor
    strips that text of the white space around it and calls the backend
    exactly once, with the stripped text; what it pushes is what
    [_ainvoke] pushes for that text, and the trigger frame itself is not
    among it. Stripping removes a run of white space at each end and
    leaves a text that neither starts nor ends with white space. For the
    messages [{role: "user", content: "  Hello  "}] and a chain that
    yields "Hel" and "lo", the frames pushed are exactly ResponseStart,
    TextChunk("Hel"), TextChunk("lo"), ResponseEnd, all downstream. *)
Theorem trigger_handling :
  (∀ (self : Langchain.LangchainProcessor) (msgs : list (gmap string Any))
     (m : gmap string Any) (c : string) (d : FrameDirection),
     last msgs = Some m → m !! "content" = Some (PyStr c) →
     let run := Langchain.process_frame self (LLMMessagesFrame msgs) d in
     astream_calls (trace run) = [chain_call self (strip c)]
     ∧ chain_call self (strip c)
       = {| astream_input := {[ Langchain._transcript_key self := PyStr (strip c) ]};
            astream_config := {[ "configurable" := Langchain._config self ]} |}
     ∧ pushed (trace run) = pushed (trace (Langchain._ainvoke self (strip c)))
     ∧ outcome run = outcome (Langchain._ainvoke self (strip c))
     ∧ LLMMessagesFrame msgs ∉ frames (trace run))
  ∧ (∀ (self : Langgraph.LanggraphProcessor) (msgs : list (gmap string Any))
       (m : gmap string Any) (c : string) (d : FrameDirection),
       last msgs = Some m → m !! "content" = Some (PyStr c) →
       let run := Langgraph.process_frame self (LLMMessagesFrame msgs) d in
       events_calls (trace run) = [graph_call self (strip c)]
       ∧ events_input (graph_call self (strip c))
         = {[ "messages" := [ {| human_content := strip c |} ] ]}
       ∧ pushed (trace run) = pushed (trace (Langgraph._ainvoke self (strip c)))
       ∧ outcome run = outcome (Langgraph._ainvoke self (strip c))
       ∧ LLMMessagesFrame msgs ∉ frames (trace run))
  ∧ (∀ c : string,
       (∃ l r, c = l +:+ strip c +:+ r
               ∧ all_space l = true ∧ all_space r = true)
       ∧ (∀ a t, strip c = String a t → isspace a = false)
       ∧ (∀ t a, strip c = t +:+ String a "" → isspace a = false))
  ∧ (∀ (self : Langchain.LangchainProcessor) (d : FrameDirection),
       chain_stream self "Hello" = prepend [PyStr "Hel"; PyStr "lo"] Exhausted →
       outcome (Langchain.process_frame self hello_frame d) = Returned tt
       ∧ pushed (trace (Langchain.process_frame self hello_frame d))
         = [(LLMFullResponseStartFrame, DOWNSTREAM);
            (TextFrame "Hel", DOWNSTREAM); (TextFrame "lo", DOWNSTREAM);
            (LLMFullResponseEndFrame, DOWNSTREAM)]).
Proof.
  split; [|split; [|split]].
  - intros self msgs m c d Hm Hc run. subst run.
    rewrite (chain_trigger self msgs m c d Hm Hc), logger_bind.
    cbn [trace outcome fst snd].
    change (astream_calls (Log ?l ?x :: ?t)) with (astream_calls t).
    change (pushed (Log ?l ?x :: ?t)) with (pushed t).
    change (frames (Log ?l ?x :: ?t)) with (frames t).
    rewrite chain_calls_once. repeat split; [].
    apply no_trigger_not_elem, chain_no_trigger.
  - intros self msgs m c d Hm Hc run. subst run.
    rewrite (graph_trigger self msgs m c d Hm Hc), logger_bind.
    cbn [trace outcome fst snd].
    change (events_calls (Log ?l ?x :: ?t)) with (events_calls t).
    change (pushed (Log ?l ?x :: ?t)) with (pushed t).
    change (frames (Log ?l ?x :: ?t)) with (frames t).
    rewrite graph_calls_once. repeat split; [].
    apply no_trigger_not_elem, graph_no_trigger.
  - apply strip_spec.
  - intros self d Hs. unfold hello_frame.
    rewrite (chain_trigger self [hello_message] hello_message
               "  Hello  " d eq_refl hello_content), logger_bind.
    change (strip "  Hello  ") with "Hello".
    rewrite chain_ainvoke_eq, Hs. split; reflexivity.
Qed.

Lemma trigger_handling_witness :
  (last [hello_message] = Some hello_message
   ∧ astream_calls (trace (Langchain.process_frame hello_chain hello_frame UPSTREAM))
     = [chain_call hello_chain "Hello"])
  ∧ pushed (trace (Langchain.process_frame hello_chain hello_frame UPSTREAM))
    = [(LLMFullResponseStartFrame, DOWNSTREAM);
       (TextFrame "Hel", DOWNSTREAM); (TextFrame "lo", DOWNSTREAM);
       (LLMFullResponseEndFrame, DOWNSTREAM)]
  ∧ events_calls (trace (Langgraph.process_frame plain_graph hello_frame DOWNSTREAM))
    = [graph_call plain_graph "Hello"].
Proof.
  destruct trigger_handling as (Hchain & Hgraph & _ & Hscen).
  split; [split; [reflexivity|]|split].
  - apply (Hchain hello_chain [hello_message] hello_message "  Hello  " UPSTREAM);
      [reflexivity|vm_compute; reflexivity].
  - apply (Hscen hello_chain UPSTREAM). reflexivity.
  - apply (Hgraph plain_graph [hello_message] hello_message "  Hello  " DOWNSTREAM);
      [reflexivity|vm_compute; reflexivity].
Defined.

(** C7, as stated, fails for a message list that is not empty but whose
    last message has [None] as content, or no content at all: the
    backend is not invoked and [process_frame] raises. *)
Lemma trigger_without_text :
  let null_run :=
    Langchain.process_frame hello_chain (LLMMessagesFrame [null_message])
      DOWNSTREAM in
  let silent_run :=
    Langgraph.process_frame plain_graph
      (LLMMessagesFrame [hello_message; silent_message]) DOWNSTREAM in
  (outcome null_run = Raised (Exception (AttributeError "strip"))
   ∧ astream_calls (trace null_run) = []
   ∧ length (astream_calls (trace null_run)) ≠ 1)
  ∧ (outcome silent_run = Raised (Exception (KeyError "content"))
     ∧ events_calls (trace silent_run) = []
     ∧ length (events_calls (trace silent_run)) ≠ 1).
Proof.
  cbv zeta. split; (split; [vm_compute; reflexivity|]);
    (split; [vm_compute; reflexivity|]); vm_compute; congruence.
Qed.


(** ** Configuration *)

(** C8. [set_configurable] replaces the configuration [C] of a
    [LangchainProcessor] by [C] merged with the update [U]: a key of [U]
    takes the value [U] gives it, a key absent from [U] keeps the value
    it had in [C], and nothing else of the processor changes. The next
    invocation makes one call to the chain and passes it exactly the
    merged mapping as ["configurable"]; after an update with
    {"thread_id": "abc"} the call carries thread_id = "abc", whatever
    the configuration was before. *)
Theorem configuration_merge :
  (∀ (self : Langchain.LangchainProcessor) (U : gmap string Any) (k : string),
     Langchain._config (Langchain.set_configurable self U) !! k
     = match U !! k with
       | Some v => Some v
       | None => Langchain._config self !! k
       end)
  ∧ (∀ (self : Langchain.LangchainProcessor) (U : gmap string Any),
       Langchain._chain (Langchain.set_configurable self U) = Langchain._chain self
       ∧ Langchain._transcript_key (Langchain.set_configurable self U)
         = Langchain._transcript_key self)
  ∧ (∀ (self : Langchain.LangchainProcessor) (U : gmap string Any)
       (text : string),
       astream_calls
         (trace (Langchain._ainvoke (Langchain.set_configurable self U) text))
       = [ {| astream_input := {[ Langchain._transcript_key self := PyStr text ]};
              astream_config :=
                {[ "configurable" :=
                     Langchain._config (Langchain.set_configurable self U) ]} |} ])
  ∧ (∀ (self : Langchain.LangchainProcessor) (text : string),
       ∃ call cfg,
         astream_calls
           (trace (Langchain._ainvoke
              (Langchain.set_configurable self {[ "thread_id" := PyStr "abc" ]})
              text))
         = [call]
         ∧ astream_config call !! "configurable" = Some cfg
         ∧ cfg !! "thread_id" = Some (PyStr "abc")).
Proof.
  split; [|split; [done|split]].
  - intros self U k. cbn [Langchain.set_configurable Langchain._config].
    unfold dict_update. destruct (U !! k) as [v|] eqn:Hk.
    + by apply lookup_union_Some_l.
    + by apply lookup_union_r.
  - intros self U text. by rewrite chain_calls_once.
  - intros self text. eexists _, _. split; [apply chain_calls_once|].
    split; [apply lookup_singleton_eq|].
    cbn [Langchain.set_configurable Langchain._config]. unfold dict_update.
    apply lookup_union_Some_l, lookup_singleton_eq.
Qed.

(** ** Frames that are not triggers *)

Lemma for_in_pass {E} (body : E → M unit) (act : E → Action) (l : list E) :
  Forall (λ x, body x = (Returned tt, [act x])) l →
  for_in l body = (Returned tt, act <$> l).
Proof.
  induction 1 as [|x l Hx _ IH]; [done|].
  cbn [for_in]. by rewrite bind_eq, Hx, IH.
Qed.

(** C9. For every frame that is not an [LLMMessagesFrame], and either
    direction, [process_frame] pushes exactly that frame, unchanged and
    in the direction it came with, and does nothing else: no marker of a
    response is pushed and the backend is not called. Frames that are not
    triggers, delivered one after the other, are forwarded in the order
    of their arrival. *)
Theorem pass_through :
  (∀ (self : Langchain.LangchainProcessor) (frame : Frame) (d : FrameDirection),
     is_trigger frame = false →
     Langchain.process_frame self frame d = (Returned tt, [Push frame d]))
  ∧ (∀ (self : Langgraph.LanggraphProcessor) (frame : Frame)
       (d : FrameDirection),
       is_trigger frame = false →
       Langgraph.process_frame self frame d = (Returned tt, [Push frame d]))
  ∧ (∀ (self : Langchain.LangchainProcessor) (l : list (Frame * FrameDirection)),
       Forall (λ fd, is_trigger fd.1 = false) l →
       chain_process_frames self l
       = (Returned tt, (λ fd, Push fd.1 fd.2) <$> l))
  ∧ (∀ (self : Langgraph.LanggraphProcessor) (l : list (Frame * FrameDirection)),
       Forall (λ fd, is_trigger fd.1 = false) l →
       graph_process_frames self l
       = (Returned tt, (λ fd, Push fd.1 fd.2) <$> l)).
Proof.
  assert (∀ (self : Langchain.LangchainProcessor) frame d,
            is_trigger frame = false →
            Langchain.process_frame self frame d = (Returned tt, [Push frame d]))
    as Hchain by (by intros self [] d).
  assert (∀ (self : Langgraph.LanggraphProcessor) frame d,
            is_trigger frame = false →
            Langgraph.process_frame self frame d = (Returned tt, [Push frame d]))
    as Hgraph by (by intros self [] d).
  split; [done|]. split; [done|]. split.
  - intros self l Hl. apply for_in_pass.
    eapply Forall_impl; [exact Hl|]. intros [f d] Hf. by apply Hchain.
  - intros self l Hl. apply for_in_pass.
    eapply Forall_impl; [exact Hl|]. intros [f d] Hf. by apply Hgraph.
Qed.

Lemma pass_through_witness :
  (is_trigger (OtherFrame "AudioRawFrame") = false
   ∧ Langchain.process_frame hello_chain (OtherFrame "AudioRawFrame") UPSTREAM
     = (Returned tt, [Push (OtherFrame "AudioRawFrame") UPSTREAM])
   ∧ Langgraph.process_frame plain_graph (TextFrame "hi") DOWNSTREAM
     = (Returned tt, [Push (TextFrame "hi") DOWNSTREAM]))
  ∧ chain_process_frames hello_chain
      [(OtherFrame "AudioRawFrame", DOWNSTREAM); (TextFrame "hi", UPSTREAM)]
    = (Returned tt,
       [Push (OtherFrame "AudioRawFrame") DOWNSTREAM; Push (TextFrame "hi") UPSTREAM])
  ∧ graph_process_frames plain_graph
      [(OtherFrame "AudioRawFrame", DOWNSTREAM); (TextFrame "hi", UPSTREAM);
       (LLMFullResponseEndFrame, DOWNSTREAM)]
    = (Returned tt,
       [Push (OtherFrame "AudioRawFrame") DOWNSTREAM; Push (TextFrame "hi") UPSTREAM;
        Push LLMFullResponseEndFrame DOWNSTREAM]).
Proof.
  destruct pass_through as (Hchain & Hgraph & Hchains & Hgraphs).
  split; [split; [reflexivity|split]|split].
  - apply Hchain. reflexivity.
  - apply Hgraph. reflexivity.
  - apply (Hchains hello_chain
      [(OtherFrame "AudioRawFrame", DOWNSTREAM); (TextFrame "hi", UPSTREAM)]).
    repeat constructor.
  - apply (Hgraphs plain_graph
      [(OtherFrame "AudioRawFrame", DOWNSTREAM); (TextFrame "hi", UPSTREAM);
       (LLMFullResponseEndFrame, DOWNSTREAM)]).
    repeat constructor.
Defined.

(** ** A trigger without messages *)

(** C10. When a trigger frame carries an empty message list,
    [process_frame] of either processor raises [IndexError] while taking
    the last message: only the debug record of the frame precedes it, no
    frame is pushed, in particular no [LLMFullResponseStartFrame], and
    the backend is not called. The exception reaches the caller, so the
    framing bracket is not produced for such a trigger. *)
Theorem empty_messages :
  (∀ (self : Langchain.LangchainProcessor) (d : FrameDirection),
     let run := Langchain.process_frame self (LLMMessagesFrame []) d in
     run = (Raised (Exception IndexError),
            [Log DEBUG (Got_transcription_frame (LLMMessagesFrame []))])
     ∧ pushed (trace run) = []
     ∧ astream_calls (trace run) = []
     ∧ ¬ bracketed (frames (trace run)))
  ∧ (∀ (self : Langgraph.LanggraphProcessor) (d : FrameDirection),
       let run := Langgraph.process_frame self (LLMMessagesFrame []) d in
       run = (Raised (Exception IndexError),
              [Log DEBUG (Got_transcription_frame (LLMMessagesFrame []))])
       ∧ pushed (trace run) = []
       ∧ events_calls (trace run) = []
       ∧ ¬ bracketed (frames (trace run))).
Proof.
  split; intros self d run; subst run; (repeat split; [done..|]);
    apply not_bracketed_without_end; done.
Qed.

(** * Further properties of the two processors *)

(** ** Configuration of the chain processor *)

(** X1. Updates of the configuration compose: two calls of
    [set_configurable] amount to one call with the second update merged
    over the first; an empty update changes nothing and repeating an
    update changes nothing more. The keys of the configuration after an
    update are those of the update and those it had: no call removes a
    key. *)
Theorem set_configurable_compose :
  (∀ (self : Langchain.LangchainProcessor) (U1 U2 : gmap string Any),
     Langchain.set_configurable (Langchain.set_configurable self U1) U2
     = Langchain.set_configurable self (U2 ∪ U1))
  ∧ (∀ self : Langchain.LangchainProcessor,
       Langchain.set_configurable self ∅ = self)
  ∧ (∀ (self : Langchain.LangchainProcessor) (U : gmap string Any),
       Langchain.set_configurable (Langchain.set_configurable self U) U
       = Langchain.set_configurable self U)
  ∧ (∀ (self : Langchain.LangchainProcessor) (U : gmap string Any),
       dom (Langchain._config (Langchain.set_configurable self U))
       = dom U ∪ dom (Langchain._config self)).
Proof.
  split; [|split; [|split]].
  - intros self U1 U2. unfold Langchain.set_configurable, dict_update.
    cbn [Langchain._chain Langchain._config Langchain._transcript_key].
    by rewrite (assoc_L (∪)).
  - intros [chain cfg key]. unfold Langchain.set_configurable, dict_update.
    cbn [Langchain._chain Langchain._config Langchain._transcript_key].
    by rewrite (left_id_L ∅ (∪)).
  - intros self U. unfold Langchain.set_configurable, dict_update.
    cbn [Langchain._chain Langchain._config Langchain._transcript_key].
    by rewrite (assoc_L (∪)), (idemp_L (∪)).
  - intros self U. cbn [Langchain.set_configurable Langchain._config].
    unfold dict_update. apply dom_union_L.
Qed.

(** X2. A processor made by [__init__] has an empty configuration: its
    first invocation passes the text under the transcript key it was
    given and an empty ["configurable"]; after one update [U] the
    backend receives exactly [U]. *)
Theorem fresh_chain_configuration :
  ∀ (chain : AstreamCall → Stream Any) (key text : string)
    (U : gmap string Any),
    astream_calls (trace (Langchain._ainvoke (Langchain.__init__ chain key) text))
    = [ {| astream_input := {[ key := PyStr text ]};
           astream_config := {[ "configurable" := ∅ ]} |} ]
    ∧ astream_calls
        (trace (Langchain._ainvoke
           (Langchain.set_configurable (Langchain.__init__ chain key) U) text))
      = [ {| astream_input := {[ key := PyStr text ]};
             astream_config := {[ "configurable" := U ]} |} ].
Proof.
  intros chain key text U. rewrite !chain_calls_once. split; [done|].
  unfold chain_call, Langchain.set_configurable, dict_update.
  cbn [Langchain.__init__ Langchain._config Langchain._transcript_key].
  by rewrite (right_id_L ∅ (∪)).
Qed.

(** ** The thread of the graph processor *)

(** X3. The graph is called with the participant set last as its
    ["thread_id"], and with [None] when none was ever set; the input is
    the one human message made of the text and the version is "v1". *)
Theorem participant_thread :
  (∀ (self : Langgraph.LanggraphProcessor) (p q : string),
     Langgraph.set_participant_id (Langgraph.set_participant_id self p) q
     = Langgraph.set_participant_id self q)
  ∧ (∀ (self : Langgraph.LanggraphProcessor) (p text : string),
       events_calls
         (trace (Langgraph._ainvoke (Langgraph.set_participant_id self p) text))
       = [ {| events_input := {[ "messages" := [ {| human_content := text |} ] ]};
              events_config :=
                {[ "configurable" := {[ "thread_id" := PyStr p ]} ]};
              events_version := "v1" |} ])
  ∧ (∀ (graph : AstreamEventsCall → Stream Langgraph.StreamEvent)
       (text : string),
       events_calls (trace (Langgraph._ainvoke (Langgraph.__init__ graph) text))
       = [ {| events_input := {[ "messages" := [ {| human_content := text |} ] ]};
              events_config :=
                {[ "configurable" := {[ "thread_id" := PyNone ]} ]};
              events_version := "v1" |} ]).
Proof.
  split; [done|]. split; intros; by rewrite graph_calls_once.
Qed.

(** ** Triggers *)

Ltac trigger_cases :=
  rewrite list_getitem_last;
  match goal with |- context [last ?l] => destruct (last l) as [m|] end;
  [|done];
  cbn [or_raise]; rewrite ret_bind; unfold dict_getitem;
  match goal with |- context [?m !! "content"] =>
    destruct (m !! "content") as [[]|] end;
  cbn [or_raise]; rewrite ?ret_bind; cbn [strip_method];
  rewrite ?ret_bind; done.

Lemma chain_trigger_cases (self : Langchain.LangchainProcessor) msgs d :
  Langchain.process_frame self (LLMMessagesFrame msgs) d =
    (logger DEBUG (Got_transcription_frame (LLMMessagesFrame msgs));;
     match last msgs with
     | None => raise (Exception IndexError)
     | Some m =>
         match m !! "content" with
         | None => raise (Exception (KeyError "content"))
         | Some (PyStr c) => Langchain._ainvoke self (strip c)
         | Some _ => raise (Exception (AttributeError "strip"))
         end
     end).
Proof. unfold Langchain.process_frame. f_equal. trigger_cases. Qed.

Lemma graph_trigger_cases (self : Langgraph.LanggraphProcessor) msgs d :
  Langgraph.process_frame self (LLMMessagesFrame msgs) d =
    (logger DEBUG (Got_transcription_frame (LLMMessagesFrame msgs));;
     match last msgs with
     | None => raise (Exception IndexError)
     | Some m =>
         match m !! "content" with
         | None => raise (Exception (KeyError "content"))
         | Some (PyStr c) => Langgraph._ainvoke self (strip c)
         | Some _ => raise (Exception (AttributeError "strip"))
         end
     end).
Proof. unfold Langgraph.process_frame. f_equal. trigger_cases. Qed.

(** X4. A trigger whose last message has no ["content"] key makes
    [process_frame] raise [KeyError], and one whose content is not a
    [str] makes it raise [AttributeError] (no [strip]); in both cases,
    in either processor, only the debug record of the frame precedes the
    exception: nothing is pushed and the backend is not called. *)
Theorem unusable_last_message :
  (∀ (self : Langchain.LangchainProcessor) msgs (m : gmap string Any) d,
     last msgs = Some m → m !! "content" = None →
     Langchain.process_frame self (LLMMessagesFrame msgs) d
     = (Raised (Exception (KeyError "content")),
        [Log DEBUG (Got_transcription_frame (LLMMessagesFrame msgs))]))
  ∧ (∀ (self : Langgraph.LanggraphProcessor) msgs (m : gmap string Any) d,
       last msgs = Some m → m !! "content" = None →
       Langgraph.process_frame self (LLMMessagesFrame msgs) d
       = (Raised (Exception (KeyError "content")),
          [Log DEBUG (Got_transcription_frame (LLMMessagesFrame msgs))]))
  ∧ (∀ (self : Langchain.LangchainProcessor) msgs (m : gmap string Any) v d,
       last msgs = Some m → m !! "content" = Some v → (∀ c, v ≠ PyStr c) →
       Langchain.process_frame self (LLMMessagesFrame msgs) d
       = (Raised (Exception (AttributeError "strip")),
          [Log DEBUG (Got_transcription_frame (LLMMessagesFrame msgs))]))
  ∧ (∀ (self : Langgraph.LanggraphProcessor) msgs (m : gmap string Any) v d,
       last msgs = Some m → m !! "content" = Some v → (∀ c, v ≠ PyStr c) →
       Langgraph.process_frame self (LLMMessagesFrame msgs) d
       = (Raised (Exception (AttributeError "strip")),
          [Log DEBUG (Got_transcription_frame (LLMMessagesFrame msgs))])).
Proof.
  split; [|split; [|split]].
  - intros self msgs m d Hm Hc. by rewrite chain_trigger_cases, Hm, Hc.
  - intros self msgs m d Hm Hc. by rewrite graph_trigger_cases, Hm, Hc.
  - intros self msgs m v d Hm Hc Hv. rewrite chain_trigger_cases, Hm, Hc.
    destruct v; try done. by destruct (Hv s).
  - intros self msgs m v d Hm Hc Hv. rewrite graph_trigger_cases, Hm, Hc.
    destruct v; try done. by destruct (Hv s).
Qed.

Lemma unusable_last_message_witness :
  (last [hello_message; silent_message] = Some silent_message
   ∧ silent_message !! "content" = None
   ∧ Langchain.process_frame hello_chain
       (LLMMessagesFrame [hello_message; silent_message]) DOWNSTREAM
     = (Raised (Exception (KeyError "content")),
        [Log DEBUG (Got_transcription_frame
                      (LLMMessagesFrame [hello_message; silent_message]))])
   ∧ Langgraph.process_frame plain_graph
       (LLMMessagesFrame [hello_message; silent_message]) DOWNSTREAM
     = (Raised (Exception (KeyError "content")),
        [Log DEBUG (Got_transcription_frame
                      (LLMMessagesFrame [hello_message; silent_message]))]))
  ∧ (null_message !! "content" = Some PyNone
     ∧ Langchain.process_frame hello_chain (LLMMessagesFrame [null_message]) UPSTREAM
       = (Raised (Exception (AttributeError "strip")),
          [Log DEBUG (Got_transcription_frame (LLMMessagesFrame [null_message]))])
     ∧ Langgraph.process_frame plain_graph (LLMMessagesFrame [null_message]) UPSTREAM
       = (Raised (Exception (AttributeError "strip")),
          [Log DEBUG (Got_transcription_frame (LLMMessagesFrame [null_message]))])).
Proof.
  destruct unusable_last_message as (H1 & H2 & H3 & H4).
  split.
  - split; [reflexivity|]. split; [vm_compute; reflexivity|]. split.
    + apply (H1 hello_chain [hello_message; silent_message] silent_message);
        [reflexivity|vm_compute; reflexivity].
    + apply (H2 plain_graph [hello_message; silent_message] silent_message);
        [reflexivity|vm_compute; reflexivity].
  - split; [vm_compute; reflexivity|]. split.
    + apply (H3 hello_chain [null_message] null_message PyNone);
        [reflexivity|vm_compute; reflexivity|discriminate].
    + apply (H4 plain_graph [null_message] null_message PyNone);
        [reflexivity|vm_compute; reflexivity|discriminate].
Defined.

(** X5. Of a trigger only the last message counts: the messages before
    it and the direction the trigger came with change neither what is
    pushed, nor the call to the backend, nor how [process_frame] ends. *)
Theorem last_message_only :
  (∀ (self : Langchain.LangchainProcessor) (pre : list (gmap string Any))
     (m : gmap string Any) (d d' : FrameDirection),
     let long := Langchain.process_frame self (LLMMessagesFrame (pre ++ [m])) d in
     let short := Langchain.process_frame self (LLMMessagesFrame [m]) d' in
     outcome long = outcome short
     ∧ pushed (trace long) = pushed (trace short)
     ∧ astream_calls (trace long) = astream_calls (trace short))
  ∧ (∀ (self : Langgraph.LanggraphProcessor) (pre : list (gmap string Any))
       (m : gmap string Any) (d d' : FrameDirection),
       let long := Langgraph.process_frame self (LLMMessagesFrame (pre ++ [m])) d in
       let short := Langgraph.process_frame self (LLMMessagesFrame [m]) d' in
       outcome long = outcome short
       ∧ pushed (trace long) = pushed (trace short)
       ∧ events_calls (trace long) = events_calls (trace short)).
Proof.
  split; intros self pre m d d'; cbv zeta.
  - rewrite !chain_trigger_cases, !logger_bind, last_snoc. done.
  - rewrite !graph_trigger_cases, !logger_bind, last_snoc. done.
Qed.

(** ** Blank input *)

Lemma lstrip_blank (s : string) : all_space s = true → lstrip s = EmptyString.
Proof.
  induction s as [|c s IH]; [done|]. cbn [all_space lstrip].
  intros [Hc Hs]%andb_true_iff. rewrite Hc. auto.
Qed.

Lemma strip_blank (s : string) : all_space s = true → strip s = EmptyString.
Proof. intros H. unfold strip. by rewrite lstrip_blank. Qed.

Lemma rstrip_fixed (s : string) :
  (∀ t c, s = t +:+ String c EmptyString → isspace c = false) → rstrip s = s.
Proof.
  induction s as [|a s IH]; [done|]. intros H. cbn [rstrip].
  rewrite IH.
  - destruct s as [|b s]; [|done].
    by rewrite (H EmptyString a eq_refl).
  - intros t c ->. by apply (H (String a t) c).
Qed.

Lemma strip_fixed (s : string) :
  (∀ c t, s = String c t → isspace c = false) →
  (∀ t c, s = t +:+ String c EmptyString → isspace c = false) →
  strip s = s.
Proof.
  intros Hhead Hlast. unfold strip.
  assert (lstrip s = s) as ->.
  { destruct s as [|c t]; [done|]. cbn [lstrip].
    by rewrite (Hhead c t eq_refl). }
  by apply rstrip_fixed.
Qed.

(** X6. The processors do not guard against blank input: a trigger whose
    last content is empty or made of white space only still invokes the
    backend, once, with the empty string. A content without white space
    at its ends is passed as it is, and stripping twice is stripping
    once. *)
Theorem blank_input_invokes :
  (∀ (self : Langchain.LangchainProcessor) msgs (m : gmap string Any) c d,
     last msgs = Some m → m !! "content" = Some (PyStr c) →
     all_space c = true →
     astream_calls (trace (Langchain.process_frame self (LLMMessagesFrame msgs) d))
     = [chain_call self EmptyString])
  ∧ (∀ (self : Langgraph.LanggraphProcessor) msgs (m : gmap string Any) c d,
       last msgs = Some m → m !! "content" = Some (PyStr c) →
       all_space c = true →
       events_calls (trace (Langgraph.process_frame self (LLMMessagesFrame msgs) d))
       = [graph_call self EmptyString])
  ∧ (∀ (self : Langchain.LangchainProcessor) msgs (m : gmap string Any) c d,
       last msgs = Some m → m !! "content" = Some (PyStr c) →
       (∀ a t, c = String a t → isspace a = false) →
       (∀ t a, c = t +:+ String a EmptyString → isspace a = false) →
       astream_calls (trace (Langchain.process_frame self (LLMMessagesFrame msgs) d))
       = [chain_call self c])
  ∧ (∀ c : string, strip (strip c) = strip c).
Proof.
  split; [|split; [|split]].
  - intros self msgs m c d Hm Hc Hb.
    rewrite chain_trigger_cases, Hm, Hc, logger_bind, (strip_blank c Hb).
    apply chain_calls_once.
  - intros self msgs m c d Hm Hc Hb.
    rewrite graph_trigger_cases, Hm, Hc, logger_bind, (strip_blank c Hb).
    apply graph_calls_once.
  - intros self msgs m c d Hm Hc Hh Hl.
    rewrite chain_trigger_cases, Hm, Hc, logger_bind, (strip_fixed c Hh Hl).
    apply chain_calls_once.
  - intros c. destruct (strip_spec c) as (_ & Hh & Hl). by apply strip_fixed.
Qed.

Lemma blank_input_invokes_witness :
  (all_space "   " = true
   ∧ astream_calls
       (trace (Langchain.process_frame hello_chain
                 (LLMMessagesFrame [blank_message]) DOWNSTREAM))
     = [chain_call hello_chain EmptyString]
   ∧ events_calls
       (trace (Langgraph.process_frame plain_graph
                 (LLMMessagesFrame [blank_message]) DOWNSTREAM))
     = [graph_call plain_graph EmptyString])
  ∧ astream_calls
      (trace (Langchain.process_frame hello_chain
                (LLMMessagesFrame [ {[ "content" := PyStr "a b" ]} ]) DOWNSTREAM))
    = [chain_call hello_chain "a b"].
Proof.
  destruct blank_input_invokes as (H1 & H2 & H3 & _).
  split; [split; [reflexivity|split]|].
  - apply (H1 hello_chain [blank_message] blank_message "   ");
      [reflexivity|vm_compute; reflexivity|reflexivity].
  - apply (H2 plain_graph [blank_message] blank_message "   ");
      [reflexivity|vm_compute; reflexivity|reflexivity].
  - apply (H3 hello_chain [ {[ "content" := PyStr "a b" ]} ]
             {[ "content" := PyStr "a b" ]} "a b");
      [reflexivity|vm_compute; reflexivity|..].
    + intros a t [= <- _]. reflexivity.
    + intros t a H.
      destruct t as [|x [|y [|z t]]]; try discriminate H.
      * injection H as _ _ <-. reflexivity.
      * injection H as _ _ _ H. by destruct t.
Defined.

(** ** Direction of the response *)

Lemma downstream_app t1 t2 :
  downstream t1 → downstream t2 → downstream (t1 ++ t2).
Proof.
  unfold downstream. rewrite pushed_app. intros H1 H2.
  apply Forall_app. done.
Qed.

Lemma downstream_flat_map {E} (f : E → list Action) (l : list E) :
  (∀ x, downstream (f x)) → downstream (flat_map f l).
Proof.
  intros H. induction l as [|x l IH]; [constructor|].
  cbn [flat_map]. by apply downstream_app.
Qed.

Lemma downstream_fmap_push {E} (f : E → Frame) (l : list E) :
  downstream ((λ x, Push (f x) DOWNSTREAM) <$> l).
Proof.
  unfold downstream. rewrite pushed_fmap_push, Forall_fmap.
  by apply Forall_forall.
Qed.

Lemma aftermath_downstream warn err o : downstream (trace (aftermath warn err o)).
Proof. destruct o as [[| | | |c]|]; cbn; by repeat constructor. Qed.

Lemma on_event_downstream (ev : Langgraph.StreamEvent) :
  downstream (Anext :: trace (Langgraph.on_event ev)).
Proof.
  rewrite on_event_eq.
  repeat match goal with
         | |- context [if ?b then _ else _] => destruct b
         | |- context [match ?o with Some _ => _ | None => _ end] => destruct o
         | |- context [match ?o with Langgraph.OutputDict _ => _ | _ => _ end] =>
             destruct o
         end; cbn [trace snd]; try by repeat constructor.
  apply (downstream_fmap_push (λ d, ToolResultMessage_ (PyDocDict d))).
Qed.

Lemma chain_downstream (self : Langchain.LangchainProcessor) (text : string) :
  downstream (trace (Langchain._ainvoke self text)).
Proof.
  rewrite chain_ainvoke_eq. cbn [trace snd].
  apply (downstream_app [_; _; _]); [by repeat constructor|].
  apply downstream_app.
  - apply downstream_flat_map. intros x. by repeat constructor.
  - apply (aftermath_downstream WARNING ERROR).
Qed.

Lemma graph_downstream (self : Langgraph.LanggraphProcessor) (text : string) :
  downstream (trace (Langgraph._ainvoke self text)).
Proof.
  rewrite graph_ainvoke_eq. cbn [trace snd].
  apply (downstream_app [_; _; _]); [by repeat constructor|].
  apply downstream_app; [|apply downstream_app].
  - apply downstream_flat_map, on_event_downstream.
  - destruct (reaches_end _ _); constructor.
  - apply aftermath_downstream.
Qed.

(** X7. Whatever the backend stream does, every frame [_ainvoke]
    pushes goes downstream; so does every frame [process_frame] pushes
    for a trigger, also when the trigger itself came upstream. *)
Theorem response_goes_downstream :
  (∀ (self : Langchain.LangchainProcessor) (text : string),
     downstream (trace (Langchain._ainvoke self text)))
  ∧ (∀ (self : Langgraph.LanggraphProcessor) (text : string),
       downstream (trace (Langgraph._ainvoke self text)))
  ∧ (∀ (self : Langchain.LangchainProcessor) msgs (d : FrameDirection),
       downstream (trace (Langchain.process_frame self (LLMMessagesFrame msgs) d)))
  ∧ (∀ (self : Langgraph.LanggraphProcessor) msgs (d : FrameDirection),
       downstream (trace (Langgraph.process_frame self (LLMMessagesFrame msgs) d))).
Proof.
  split; [exact chain_downstream|]. split; [exact graph_downstream|].
  split; intros self msgs d.
  - rewrite chain_trigger_cases, logger_bind. cbn [trace snd].
    change (downstream (Log ?l ?x :: ?t)) with (downstream t).
    destruct (last msgs) as [m|]; [|constructor].
    destruct (m !! "content") as [[]|]; try constructor.
    apply chain_downstream.
  - rewrite graph_trigger_cases, logger_bind. cbn [trace snd].
    change (downstream (Log ?l ?x :: ?t)) with (downstream t).
    destruct (last msgs) as [m|]; [|constructor].
    destruct (m !! "content") as [[]|]; try constructor.
    apply graph_downstream.
Qed.

(** ** The call to the backend *)

(** X8. An invocation opens the backend stream once and never again,
    whatever the stream then does, and it does so after it has pushed
    the start marker: the marker is out before the backend is asked for
    anything. *)
Theorem one_call_after_start :
  (∀ (self : Langchain.LangchainProcessor) (text : string),
     ∃ rest,
       trace (Langchain._ainvoke self text)
       = [Log DEBUG (Invoking_chain_with text);
          Push LLMFullResponseStartFrame DOWNSTREAM;
          Astream (chain_call self text)] ++ rest
       ∧ astream_calls rest = [] ∧ events_calls rest = [])
  ∧ (∀ (self : Langgraph.LanggraphProcessor) (text : string),
       ∃ rest,
         trace (Langgraph._ainvoke self text)
         = [Log DEBUG (Invoking_agent_with text);
            Push LLMFullResponseStartFrame DOWNSTREAM;
            AstreamEvents (graph_call self text)] ++ rest
         ∧ astream_calls rest = [] ∧ events_calls rest = []).
Proof.
  split; intros self text.
  - pose proof (chain_calls_once self text) as Hc.
    rewrite chain_ainvoke_eq in *. cbn [trace snd] in *.
    eexists. split; [reflexivity|]. split.
    + by injection Hc.
    + rewrite events_calls_app, events_calls_flat_map by done.
      change (events_calls (Anext :: ?t)) with (events_calls t).
      by destruct (aftermath_quiet WARNING ERROR
                     (ending (chain_stream self text))) as (_ & _ & ->).
  - pose proof (graph_calls_once self text) as Hc.
    rewrite graph_ainvoke_eq in *. cbn [trace snd] in *.
    eexists. split; [reflexivity|]. split.
    + rewrite !astream_calls_app, astream_calls_flat_map.
      * destruct (aftermath_quiet EXCEPTION EXCEPTION
                    (loop_end Langgraph.on_event (graph_stream self text)))
          as (_ & -> & _).
        by destruct (reaches_end _ _).
      * intros ev. rewrite on_event_eq.
        repeat match goal with
               | |- context [if ?b then _ else _] => destruct b
               | |- context [match ?o with Some _ => _ | None => _ end] =>
                   destruct o
               | |- context [match ?o with Langgraph.OutputDict _ => _ | _ => _ end] =>
                   destruct o
               end; try done.
        cbn [trace snd]. induction l as [|x l IH]; done.
    + by injection Hc.
Qed.

(** ** What is logged *)

Lemma diagnostics_app t1 t2 :
  diagnostics (t1 ++ t2) = diagnostics t1 ++ diagnostics t2.
Proof. apply omap_app. Qed.

Lemma alarms_app t1 t2 : alarms (t1 ++ t2) = alarms t1 ++ alarms t2.
Proof. unfold alarms. by rewrite diagnostics_app, List.filter_app. Qed.

Lemma alarms_flat_map {E} (f : E → list Action) (l : list E) :
  (∀ x, alarms (f x) = []) → alarms (flat_map f l) = [].
Proof.
  intros H. induction l as [|x l IH]; [done|].
  cbn [flat_map]. by rewrite alarms_app, H, IH.
Qed.

Lemma diagnostics_flat_map {E} (f : E → list Action) (l : list E) :
  (∀ x, diagnostics (f x) = []) → diagnostics (flat_map f l) = [].
Proof.
  intros H. induction l as [|x l IH]; [done|].
  cbn [flat_map]. by rewrite diagnostics_app, H, IH.
Qed.

Lemma aftermath_diagnostics warn err o :
  diagnostics (trace (aftermath warn err o))
  = match o with
    | Some e => if contained e then [fault_record warn err e] else []
    | None => []
    end.
Proof. destruct o as [[| | | |c]|]; done. Qed.

Lemma on_event_alarms (ev : Langgraph.StreamEvent) :
  alarms (Anext :: trace (Langgraph.on_event ev)) = [].
Proof.
  rewrite on_event_eq.
  repeat match goal with
         | |- context [if ?b then _ else _] => destruct b
         | |- context [match ?o with Some _ => _ | None => _ end] => destruct o
         | |- context [match ?o with Langgraph.OutputDict _ => _ | _ => _ end] =>
             destruct o
         end; try done.
  cbn [trace snd]. unfold alarms.
  change (diagnostics (Anext :: Log DEBUG ?m :: ?t)) with ((DEBUG, m) :: diagnostics t).
  cbn [List.filter is_alarm fst]. induction l as [|x l IH]; done.
Qed.

Lemma graph_alarms (self : Langgraph.LanggraphProcessor) (text : string) :
  alarms (trace (Langgraph._ainvoke self text))
  = match loop_end Langgraph.on_event (graph_stream self text) with
    | Some e => if contained e then [fault_record EXCEPTION EXCEPTION e] else []
    | None => []
    end.
Proof.
  rewrite graph_ainvoke_eq. cbn [trace snd].
  change (alarms (Log DEBUG ?m :: ?b :: ?c :: ?t)) with (alarms t).
  rewrite !alarms_app, (alarms_flat_map _ _ on_event_alarms).
  assert (alarms (if reaches_end Langgraph.on_event (graph_stream self text)
                  then [Anext] else []) = []) as -> by (by destruct (reaches_end _ _)).
  unfold alarms. rewrite aftermath_diagnostics.
  destruct (loop_end _ _) as [e|]; [|done].
  destruct (contained e); [|done]. by destruct e.
Qed.

(** X9. On a run whose stream is simply exhausted the chain processor
    logs its one debug record and nothing else. A contained fault adds
    exactly one record: a warning for [GeneratorExit], an error naming
    the exception otherwise. A fault that escapes is not logged by the
    processor at all. The graph processor likewise logs nothing above
    the debug level unless its loop ends in a contained fault, which it
    records once. *)
Theorem what_is_logged :
  (∀ (self : Langchain.LangchainProcessor) (text : string),
     diagnostics (trace (Langchain._ainvoke self text))
     = (DEBUG, Invoking_chain_with text)
       :: match ending (chain_stream self text) with
          | Some e => if contained e then [fault_record WARNING ERROR e] else []
          | None => []
          end)
  ∧ (∀ (self : Langgraph.LanggraphProcessor) (text : string),
       alarms (trace (Langgraph._ainvoke self text))
       = match loop_end Langgraph.on_event (graph_stream self text) with
         | Some e =>
             if contained e then [fault_record EXCEPTION EXCEPTION e] else []
         | None => []
         end)
  ∧ fault_record WARNING ERROR GeneratorExit
    = (WARNING, Generator_was_closed_prematurely)
  ∧ (∀ c, fault_record WARNING ERROR (Exception c)
          = (ERROR, An_unknown_error_occurred (Exception c))).
Proof.
  split; [|split; [exact graph_alarms|done]].
  intros self text. rewrite chain_ainvoke_eq. cbn [trace snd].
  change (diagnostics (Log DEBUG ?m :: ?b :: ?c :: ?t))
    with ((DEBUG, m) :: diagnostics t).
  f_equal. rewrite diagnostics_app, diagnostics_flat_map by done.
  change (diagnostics (Anext :: ?t)) with (diagnostics t).
  apply aftermath_diagnostics.
Qed.

(** ** Events that lack their payload *)

Lemma loop_prepend_raise {E} (body : E → M unit) (l : list E) (x : E)
    (s : Stream E) e :
  Forall (λ x, outcome (body x) = Returned tt) l →
  outcome (body x) = Raised e →
  drawn body (prepend l (Yield x s)) = l ++ [x]
  ∧ loop_end body (prepend l (Yield x s)) = Some e
  ∧ reaches_end body (prepend l (Yield x s)) = false.
Proof.
  intros Hl Hx. induction Hl as [|y l Hy Hl (IH1 & IH2 & IH3)].
  - cbn [prepend drawn loop_end reaches_end app]. by rewrite Hx.
  - cbn [prepend drawn loop_end reaches_end]. rewrite Hy, IH1, IH2, IH3. done.
Qed.

(** X10. In the graph tier an event whose handler raises ends the
    invocation there: the frames pushed are those of the events up to
    and including it, then the end marker; no further element is
    requested, so whatever the stream held after it, a fault included,
    has no effect; the invocation returns and records the exception. *)
Theorem handler_fault_ends_stream :
  ∀ (self : Langgraph.LanggraphProcessor) (text : string)
    (pre : list Langgraph.StreamEvent) (ev : Langgraph.StreamEvent)
    (rest : Stream Langgraph.StreamEvent) (e : BaseException),
    graph_stream self text = prepend pre (Yield ev rest) →
    Forall (λ x, outcome (Langgraph.on_event x) = Returned tt) pre →
    outcome (Langgraph.on_event ev) = Raised e →
    outcome (Langgraph._ainvoke self text) = Returned tt
    ∧ frames (trace (Langgraph._ainvoke self text))
      = LLMFullResponseStartFrame
        :: flat_map (λ x, frames (trace (Langgraph.on_event x))) (pre ++ [ev])
        ++ [LLMFullResponseEndFrame]
    ∧ exchanges (trace (Langgraph._ainvoke self text))
      = Push LLMFullResponseStartFrame DOWNSTREAM
        :: flat_map (λ x, Anext :: exchanges (trace (Langgraph.on_event x)))
             (pre ++ [ev])
        ++ [Push LLMFullResponseEndFrame DOWNSTREAM]
    ∧ alarms (trace (Langgraph._ainvoke self text))
      = [(EXCEPTION, An_unknown_error_occurred e)].
Proof.
  intros self text pre ev rest e Hs Hpre Hev.
  destruct (loop_prepend_raise Langgraph.on_event pre ev rest e Hpre Hev)
    as (Hd & He & Hr).
  pose proof (on_event_raises ev e Hev) as Hexc.
  assert (contained e = true) as Hc
    by (unfold contained; rewrite Hexc; apply orb_true_r).
  assert (completes (loop_end Langgraph.on_event (graph_stream self text)) = true)
    as Hcomp by (by rewrite Hs, He).
  destruct (graph_bracketed self text Hcomp) as [Ho Hf].
  split; [done|]. split; [by rewrite Hf, Hs, Hd|]. split.
  - rewrite graph_exchanges, Hs, Hd, He, Hr. cbn [completes]. by rewrite Hc.
  - rewrite graph_alarms, Hs, He, Hc. by destruct e.
Qed.

Lemma handler_fault_ends_stream_witness :
  outcome (Langgraph.on_event chunkless_event)
  = Raised (Exception (KeyError "chunk"))
  ∧ outcome (Langgraph._ainvoke broken_graph "hi") = Returned tt
  ∧ frames (trace (Langgraph._ainvoke broken_graph "hi"))
    = [LLMFullResponseStartFrame;
       LLMResponseStartFrame; TextFrame "a"; LLMResponseEndFrame;
       LLMResponseStartFrame;
       LLMFullResponseEndFrame].
Proof.
  split; [reflexivity|].
  destruct (handler_fault_ends_stream broken_graph "hi"
              [model_stream (PyStr "a")] chunkless_event
              (Yield (model_stream (PyStr "b")) (Raises CancelledError))
              (Exception (KeyError "chunk"))) as (Ho & Hf & _);
    [reflexivity|repeat constructor|reflexivity|].
  split; [exact Ho|exact Hf].
Defined.



(** ** Sub-brackets and payload of the graph tier *)

Lemma count_app p (a b : list Frame) : count p (a ++ b) = count p a + count p b.
Proof. unfold count. by rewrite List.filter_app, length_app. Qed.

Lemma frames_fmap_push {E} (f : E → Frame) (l : list E) :
  frames ((λ x, Push (f x) DOWNSTREAM) <$> l) = f <$> l.
Proof.
  unfold frames. rewrite pushed_fmap_push, <- list_fmap_compose.
  by apply list_fmap_ext.
Qed.

Lemma filter_fmap_none {E} (p : Frame → bool) (f : E → Frame) (l : list E) :
  (∀ x, p (f x) = false) → List.filter p (f <$> l) = [].
Proof.
  intros H. induction l as [|x l IH]; [done|]. cbn. by rewrite H.
Qed.


Lemma aftermath_frames warn err o :
  frames (trace (aftermath warn err o))
  = if completes o then [LLMFullResponseEndFrame] else [].
Proof. destruct o as [[| | | |c]|]; done. Qed.

Lemma on_event_frames (ev : Langgraph.StreamEvent) :
  frames (trace (Langgraph.on_event ev))
  = if (Langgraph.event ev =? "on_chat_model_stream")%string then
      match Langgraph.chunk (Langgraph.data ev) with
      | Some c => [LLMResponseStartFrame;
                   TextFrame (Langgraph.__get_token_value c);
                   LLMResponseEndFrame]
      | None => [LLMResponseStartFrame]
      end
    else (λ d, ToolResultMessage (PyDocDict d) "tool_result")
           <$> event_documents ev.
Proof.
  rewrite on_event_eq. unfold event_documents.
  destruct (Langgraph.event ev =? "on_chat_model_stream")%string eqn:H1.
  { by destruct (Langgraph.chunk (Langgraph.data ev)). }
  destruct (Langgraph.event ev =? "on_tool_start")%string eqn:H2.
  { apply String.eqb_eq in H2. by rewrite H2. }
  destruct (Langgraph.event ev =? "on_tool_end")%string eqn:H3.
  { apply String.eqb_eq in H3. by rewrite H3. }
  destruct (Langgraph.event ev =? "on_retriever_end")%string; [|done].
  destruct (Langgraph.output (Langgraph.data ev)) as [[out| | |]|]; [|done..].
  destruct (out !! "documents") as [docs|]; [|done].
  cbn [trace snd default].
  change (frames (Log ?l ?m :: ?t)) with (frames t).
  apply (frames_fmap_push (λ d, ToolResultMessage_ (PyDocDict d))).
Qed.

Lemma on_event_counts (ev : Langgraph.StreamEvent) :
  let fs := frames (trace (Langgraph.on_event ev)) in
  count is_sub_end fs = count is_text fs
  ∧ (count is_sub_end fs ≤ count is_sub_start fs)%nat
  ∧ (count is_sub_start fs ≤ S (count is_sub_end fs))%nat
  ∧ (outcome (Langgraph.on_event ev) = Returned tt →
     count is_sub_start fs = count is_sub_end fs).
Proof.
  cbv zeta. rewrite on_event_frames.
  destruct (Langgraph.event ev =? "on_chat_model_stream")%string eqn:H1.
  - rewrite on_event_eq, H1.
    destruct (Langgraph.chunk (Langgraph.data ev)); cbn; repeat split; lia || done.
  - unfold count. rewrite !filter_fmap_none by done. cbn. repeat split; lia.
Qed.

Lemma loop_counts (s : Stream Langgraph.StreamEvent) :
  let fs := flat_map (λ x, frames (trace (Langgraph.on_event x)))
              (drawn Langgraph.on_event s) in
  count is_sub_end fs = count is_text fs
  ∧ (count is_sub_end fs ≤ count is_sub_start fs)%nat
  ∧ (count is_sub_start fs ≤ S (count is_sub_end fs))%nat
  ∧ (reaches_end Langgraph.on_event s = true →
     count is_sub_start fs = count is_sub_end fs).
Proof.
  cbv zeta. induction s as [|e|x rest (IH1 & IH2 & IH3 & IH4)];
    cbn [drawn reaches_end flat_map]; [cbn; repeat split; lia..|].
  destruct (on_event_counts x) as (Hx1 & Hx2 & Hx3 & Hx4). cbv zeta in *.
  destruct (outcome (Langgraph.on_event x)) as [[]|e] eqn:Hx.
  - specialize (Hx4 eq_refl). rewrite !count_app.
    repeat split; try lia. intros Hr. specialize (IH4 Hr). lia.
  - cbn [flat_map]. rewrite !app_nil_r. repeat split; first [lia | done].
Qed.

(** X12. In the frames of an invocation of the graph tier every text
    frame is closed by its own [LLMResponseEndFrame], and at most one
    [LLMResponseStartFrame] is left without text and end: the counts of
    end frames and of text frames are equal, and the count of start
    frames is that count or one more. When no handler raised, the
    sub-brackets are balanced. *)
Theorem sub_brackets_balance :
  ∀ (self : Langgraph.LanggraphProcessor) (text : string),
    let fs := frames (trace (Langgraph._ainvoke self text)) in
    count is_sub_end fs = count is_text fs
    ∧ (count is_sub_end fs ≤ count is_sub_start fs)%nat
    ∧ (count is_sub_start fs ≤ S (count is_sub_end fs))%nat
    ∧ (reaches_end Langgraph.on_event (graph_stream self text) = true →
       count is_sub_start fs = count is_sub_end fs).
Proof.
  intros self text. cbv zeta. rewrite graph_frames, aftermath_frames.
  pose proof (loop_counts (graph_stream self text)) as H. cbv zeta in H.
  assert (∀ p, (p = is_sub_end ∨ p = is_sub_start ∨ p = is_text) →
            count p (LLMFullResponseStartFrame
                     :: flat_map (λ x, frames (trace (Langgraph.on_event x)))
                          (drawn Langgraph.on_event (graph_stream self text))
                     ++ (if completes (loop_end Langgraph.on_event
                                         (graph_stream self text))
                         then [LLMFullResponseEndFrame] else []))
            = count p (flat_map (λ x, frames (trace (Langgraph.on_event x)))
                         (drawn Langgraph.on_event (graph_stream self text))))
    as Hcount.
  { intros p Hp. change (?a :: ?l ++ ?r) with ([a] ++ l ++ r).
    rewrite !count_app.
    destruct (completes _); destruct Hp as [-> | [-> | ->]]; cbn; lia. }
  rewrite !Hcount by auto. exact H.
Qed.

Lemma sub_brackets_balance_witness :
  reaches_end Langgraph.on_event (graph_stream mixed_graph "hi") = true
  ∧ count is_sub_start (frames (trace (Langgraph._ainvoke mixed_graph "hi")))
    = count is_sub_end (frames (trace (Langgraph._ainvoke mixed_graph "hi"))).
Proof.
  split; [reflexivity|].
  apply (sub_brackets_balance mixed_graph "hi"). reflexivity.
Defined.




